(** * ComfyUI-DP-Ideogram-Character: the utility layer, embedded and verified

    The development embeds the two leaf modules of the repository,

    - [utils/api_client.py]  (module [ApiClient]) and
    - [utils/image_utils.py] (module [ImageUtils]),

    on top of a model of what they call: the Python run time (module
    [Py]: exceptions, [int], IEEE-754 binary64 [float], [str]), parsed
    JSON values with [str] and [json.dumps] (module [Json]), and the
    part of Pillow the image utilities use (modules [PIL], [PILOps]).

    A Python [int] is a [Z].  A Python [float] is a [spec_float] of the
    standard library's IEEE-754 specification at precision 53 and
    maximal exponent 1024, so that an arithmetic result below is the
    very double the interpreter computes.  A raised exception is the
    [Raise] case of [Py.result].  An image is an object in a heap.
    The network, the PNG encoder and text rendering are parameters.

    The file has three parts: the embedding, the vocabulary of the
    statements (module [Spec]), and the properties proved. *)

From Stdlib Require Import ZArith Floats.SpecFloat String Ascii List Bool Lia.
From Stdlib Require Import DecimalString.
From stdpp Require Import gmap strings.

Local Open Scope Z_scope.
Set Warnings "-register-all".

(* ===================================================================== *)
(** * The Python run time                                                 *)
(* ===================================================================== *)

Module Py.

(** Exception classes that the code can meet; all of them derive from
    [Exception]. *)
Inductive exn : Type :=
| ZeroDivisionError
| OverflowError
| ValueError
| TypeError
| KeyError
| OSError
| ImportError
| JSONDecodeError
| RequestException
| UnicodeEncodeError.

(** The outcome of evaluating an expression: a value or a raised
    exception. *)
Inductive result (A : Type) : Type :=
| Ok (a : A)
| Raise (e : exn).
Arguments Ok {A} a.
Arguments Raise {A} e.

Definition bind {A B} (r : result A) (k : A -> result B) : result B :=
  match r with
  | Ok a => k a
  | Raise e => Raise e
  end.

(** [try: body / except: handler] *)
Definition try_except {A} (body : result A) (handler : exn -> result A)
  : result A :=
  match body with
  | Ok a => Ok a
  | Raise e => handler e
  end.

(** ** [float]: IEEE-754 binary64 *)

Definition prec : Z := 53.
Definition emax : Z := 1024.

Definition float : Type := spec_float.

Definition fmul : float -> float -> float := SFmul prec emax.
Definition fsub : float -> float -> float := SFsub prec emax.
Definition fsqrt : float -> float := SFsqrt prec emax.
Definition fabs : float -> float := SFabs.
Definition flt : float -> float -> bool := SFltb.

(** An integer seen as an unrounded binary number [n * 2^0]. *)
Definition exact_int (n : Z) : float :=
  match n with
  | Z0 => S754_zero false
  | Zpos p => S754_finite false p 0
  | Zneg p => S754_finite true p 0
  end.

(** [float(n)] for an [int] [n], also the implicit conversion of an
    [int] operand of a float operation: rounded to nearest even,
    [OverflowError] when the magnitude does not fit a double. *)
Definition float_of_int (n : Z) : result float :=
  match binary_normalize prec emax n 0 false with
  | S754_infinity _ => Raise OverflowError
  | f => Ok f
  end.

(** The quotient of two integers, correctly rounded to a double (to an
    infinity beyond the largest one). *)
Definition quotient (a b : Z) : float :=
  SFdiv prec emax (exact_int a) (exact_int b).

(** [a / b] on two [int]s: the correctly rounded quotient,
    [ZeroDivisionError] for [b = 0], [OverflowError] when the quotient
    is too large for a double. *)
Definition int_true_div (a b : Z) : result float :=
  if b =? 0 then Raise ZeroDivisionError
  else match quotient a b with
       | S754_infinity _ => Raise OverflowError
       | q => Ok q
       end.

(** [x / y] on two [float]s: Python raises on a zero divisor where
    IEEE-754 would give an infinity or a NaN. *)
Definition float_div (x y : float) : result float :=
  match y with
  | S754_zero _ => Raise ZeroDivisionError
  | _ => Ok (SFdiv prec emax x y)
  end.

(** [x * n] for a [float] [x] and an [int] [n]. *)
Definition float_mul_int (x : float) (n : Z) : result float :=
  bind (float_of_int n) (fun y => Ok (fmul x y)).

(** A decimal literal [m / 10^k] denotes the double nearest to it:
    [decimal 7 2] is the literal [0.07], [decimal 3 0] the literal
    [3.0]. *)
Definition decimal (m : Z) (k : nat) : float :=
  quotient m (10 ^ Z.of_nat k).

(** [int(x)]: truncation towards zero; [ValueError] on a NaN and
    [OverflowError] on an infinity. *)
Definition int_of_float (x : float) : result Z :=
  match x with
  | S754_zero _ => Ok 0
  | S754_nan => Raise ValueError
  | S754_infinity _ => Raise OverflowError
  | S754_finite s m e =>
      let a := match e with
               | Zneg _ => Z.shiftr (Zpos m) (- e)
               | _ => Z.shiftl (Zpos m) e
               end in
      Ok (if s then - a else a)
  end.

(** [math.floor] of a finite double, for comparison with [int_of_float]. *)
Definition floor_of_float (x : float) : option Z :=
  match x with
  | S754_zero _ => Some 0
  | S754_finite s m e => Some (Z.shiftl (if s then Zneg m else Zpos m) e)
  | _ => None
  end.

(** ** [str] *)

(** [str(n)] for an [int]. *)
Definition str_of_int (n : Z) : string :=
  NilZero.string_of_int (Z.to_int n).

(** [s[:n]] *)
Fixpoint str_prefix (n : nat) (s : string) : string :=
  match n, s with
  | O, _ => EmptyString
  | S _, EmptyString => EmptyString
  | S n', String c s' => String c (str_prefix n' s')
  end.

(** [s.split(sep)] for a one-character separator: [acc] collects, in
    reverse, the characters of the current field. *)
Fixpoint split_on (sep : ascii) (acc : string) (s : string) : list string :=
  match s with
  | EmptyString => [String.rev acc]
  | String c s' =>
      if Ascii.eqb c sep
      then String.rev acc :: split_on sep EmptyString s'
      else split_on sep (String c acc) s'
  end.

Definition newline : ascii := Ascii.ascii_of_nat 10.

Definition split_lines (s : string) : list string :=
  split_on newline EmptyString s.

(** [c.isspace()] for a character below 256. *)
Definition is_space (c : ascii) : bool :=
  let n := Ascii.N_of_ascii c in
  ((9 <=? n) && (n <=? 13) || (28 <=? n) && (n <=? 32)
   || (n =? 133) || (n =? 160))%N.

(** [s.lstrip()] *)
Fixpoint lstrip (s : string) : string :=
  match s with
  | EmptyString => EmptyString
  | String c s' => if is_space c then lstrip s' else s
  end.

(** [s.rstrip()] *)
Fixpoint rstrip (s : string) : string :=
  match s with
  | EmptyString => EmptyString
  | String c s' =>
      match rstrip s' with
      | EmptyString => if is_space c then EmptyString else String c EmptyString
      | r => String c r
      end
  end.

(** [s.strip()] *)
Definition strip (s : string) : string := rstrip (lstrip s).

(** [num / den] rounded to the nearest integer, a tie going to the even
    one, for [num >= 0] and [den > 0]. *)
Definition round_half_even (num den : Z) : Z :=
  let q := num / den in
  let r := num mod den in
  if (2 * r >? den) || ((2 * r =? den) && Z.odd q) then q + 1 else q.

(** Three decimal digits, with the zeros in front. *)
Definition pad3 (n : Z) : string :=
  let s := str_of_int n in
  match String.length s with
  | 1%nat => ("00" ++ s)%string
  | 2%nat => ("0" ++ s)%string
  | _ => s
  end.

(** [format(x, '.3f')], the [{x:.3f}] of an f-string: the exact value of
    the double, correctly rounded to three decimals. *)
Definition format_3f (x : float) : string :=
  match x with
  | S754_nan => "nan"
  | S754_infinity s => if s then "-inf" else "inf"
  | S754_zero s => ((if s then "-" else "") ++ "0.000")%string
  | S754_finite s m e =>
      let thousandths :=
        match e with
        | Zneg p => round_half_even (Zpos m * 1000) (2 ^ Zpos p)
        | _ => Zpos m * 2 ^ e * 1000
        end in
      ((if s then "-" else "")
         ++ str_of_int (thousandths / 1000) ++ "."
         ++ pad3 (thousandths mod 1000))%string
  end.

(** One step of [min]: the item replaces the best one so far when its
    key is strictly smaller. *)
Definition min_step {A K} (ltb : K -> K -> bool) (key : A -> K)
           (best y : A) : A :=
  if ltb (key y) (key best) then y else best.

(** [min(xs, key=key)]: the items are taken in order, so that among
    items of equal key the first one met wins; [ValueError] on an empty
    sequence. *)
Definition min_by {A K} (ltb : K -> K -> bool) (key : A -> K)
           (xs : list A) : result A :=
  match xs with
  | [] => Raise ValueError
  | x :: rest => Ok (fold_left (min_step ltb key) rest x)
  end.

End Py.

Import Py.

(** [let* x := c in k] evaluates [c], stops if it raises, and goes on
    with [k] otherwise. *)
Notation "'let*' x := c 'in' k" := (Py.bind c (fun x => k))
  (at level 10, x name, c at level 100, k at level 200).

(* ===================================================================== *)
(** * Parsed JSON values                                                  *)
(* ===================================================================== *)

Module Json.

(** A value as [json.loads] builds it: [None], [bool], [int], [float],
    [str], [list], and [dict] with [str] keys in insertion order.  A
    [float] is kept as the text [float.__repr__] prints for it, which
    determines it; the characters of a [str] are code points below 256. *)
Inductive json : Type :=
| JNull
| JBool (b : bool)
| JInt (n : Z)
| JFloat (repr : string)
| JStr (s : string)
| JArr (xs : list json)
| JObj (kvs : list (string * json)).

(** [d.get(k)] on the items of a [dict]. *)
Fixpoint lookup_key (k : string) (kvs : list (string * json)) : option json :=
  match kvs with
  | [] => None
  | (k', v) :: rest => if String.eqb k k' then Some v else lookup_key k rest
  end.

(** [bool(v)], the test of [if v:]. *)
Definition truthy (v : json) : bool :=
  match v with
  | JNull => false
  | JBool b => b
  | JInt n => negb (n =? 0)
  | JFloat r => negb (String.eqb r "0.0" || String.eqb r "-0.0")
  | JStr s => negb (String.eqb s "")
  | JArr xs => match xs with [] => false | _ :: _ => true end
  | JObj kvs => match kvs with [] => false | _ :: _ => true end
  end.

(** [needle in hay] on two [str]s. *)
Fixpoint is_substring (needle hay : string) : bool :=
  String.prefix needle hay
  || match hay with
     | EmptyString => false
     | String _ hay' => is_substring needle hay'
     end.

Definition is_str (s : string) (v : json) : bool :=
  match v with
  | JStr s' => String.eqb s s'
  | _ => false
  end.

(** [k in v] for a [str] [k]: key membership on a [dict], element
    membership on a [list], substring test on a [str], [TypeError] on
    the values that are not containers. *)
Definition contains (k : string) (v : json) : result bool :=
  match v with
  | JObj kvs => Ok (match lookup_key k kvs with Some _ => true | None => false end)
  | JArr xs => Ok (existsb (is_str k) xs)
  | JStr s => Ok (is_substring k s)
  | _ => Raise TypeError
  end.

(** [v[k]] for a [str] [k]: only a [dict] can be indexed by a [str]. *)
Definition subscript (v : json) (k : string) : result json :=
  match v with
  | JObj kvs =>
      match lookup_key k kvs with
      | Some x => Ok x
      | None => Raise KeyError
      end
  | _ => Raise TypeError
  end.

(** ** Printing *)

Definition dquote : ascii := Ascii.ascii_of_nat 34.
Definition squote : ascii := Ascii.ascii_of_nat 39.
Definition backslash : ascii := Ascii.ascii_of_nat 92.

Definition hex_digit (n : N) : ascii :=
  Ascii.ascii_of_N (if (n <? 10)%N then 48 + n else 87 + n)%N.

(** The two lower-case hexadecimal digits of a character code. *)
Definition hex2 (c : ascii) : string :=
  let n := Ascii.N_of_ascii c in
  String (hex_digit (n / 16)%N) (String (hex_digit (n mod 16)%N) EmptyString).

Fixpoint has_char (c : ascii) (s : string) : bool :=
  match s with
  | EmptyString => false
  | String c' s' => Ascii.eqb c c' || has_char c s'
  end.

(** [str.isprintable] on one character below 256. *)
Definition printable (c : ascii) : bool :=
  let n := Ascii.N_of_ascii c in
  ((32 <=? n) && (n <? 127) || (161 <=? n) && negb (n =? 173))%N.

(** One character inside [repr] of a [str] delimited by [quote]. *)
Definition repr_char (quote c : ascii) : string :=
  let n := Ascii.N_of_ascii c in
  if Ascii.eqb c backslash || Ascii.eqb c quote
  then String backslash (String c EmptyString)
  else if (n =? 9)%N then String backslash "t"
  else if (n =? 10)%N then String backslash "n"
  else if (n =? 13)%N then String backslash "r"
  else if printable c then String c EmptyString
  else String backslash (String "x" (hex2 c)).

Fixpoint concat_map (f : ascii -> string) (s : string) : string :=
  match s with
  | EmptyString => EmptyString
  | String c s' => (f c ++ concat_map f s')%string
  end.

(** [repr(s)] for a [str]: single quotes, unless the text has a single
    quote and no double quote. *)
Definition repr_str (s : string) : string :=
  let quote :=
    if has_char squote s && negb (has_char dquote s) then dquote else squote in
  String quote (concat_map (repr_char quote) s ++ String quote EmptyString).

(** [repr(v)] *)
Fixpoint py_repr (v : json) : string :=
  match v with
  | JNull => "None"
  | JBool true => "True"
  | JBool false => "False"
  | JInt n => str_of_int n
  | JFloat r => r
  | JStr s => repr_str s
  | JArr xs =>
      let items :=
        (fix go (xs : list json) : string :=
           match xs with
           | [] => EmptyString
           | x :: rest =>
               match rest with
               | [] => py_repr x
               | _ :: _ => py_repr x ++ ", " ++ go rest
               end
           end) xs in
      "[" ++ items ++ "]"
  | JObj kvs =>
      let items :=
        (fix go (kvs : list (string * json)) : string :=
           match kvs with
           | [] => EmptyString
           | (k, x) :: rest =>
               match rest with
               | [] => repr_str k ++ ": " ++ py_repr x
               | _ :: _ => repr_str k ++ ": " ++ py_repr x ++ ", " ++ go rest
               end
           end) kvs in
      "{" ++ items ++ "}"
  end%string.

(** [str(v)]: a [str] is its own text, every other value prints as its
    [repr]. *)
Definition py_str (v : json) : string :=
  match v with
  | JStr s => s
  | _ => py_repr v
  end.

(** One character inside a string of [json.dumps] (with [ensure_ascii],
    the default). *)
Definition dumps_char (c : ascii) : string :=
  let n := Ascii.N_of_ascii c in
  if Ascii.eqb c dquote || Ascii.eqb c backslash
  then String backslash (String c EmptyString)
  else if (n =? 10)%N then String backslash "n"
  else if (n =? 13)%N then String backslash "r"
  else if (n =? 9)%N then String backslash "t"
  else if (n =? 8)%N then String backslash "b"
  else if (n =? 12)%N then String backslash "f"
  else if (32 <=? n)%N && (n <? 127)%N then String c EmptyString
  else String backslash (String "u" (String "0" (String "0" (hex2 c)))).

Definition dumps_str (s : string) : string :=
  String dquote (concat_map dumps_char s ++ String dquote EmptyString).

Definition dumps_float (r : string) : string :=
  if String.eqb r "nan" then "NaN"
  else if String.eqb r "inf" then "Infinity"
  else if String.eqb r "-inf" then "-Infinity"
  else r.

(** [json.dumps(v)] with the default separators. *)
Fixpoint json_dumps (v : json) : string :=
  match v with
  | JNull => "null"
  | JBool true => "true"
  | JBool false => "false"
  | JInt n => str_of_int n
  | JFloat r => dumps_float r
  | JStr s => dumps_str s
  | JArr xs =>
      let items :=
        (fix go (xs : list json) : string :=
           match xs with
           | [] => EmptyString
           | x :: rest =>
               match rest with
               | [] => json_dumps x
               | _ :: _ => json_dumps x ++ ", " ++ go rest
               end
           end) xs in
      "[" ++ items ++ "]"
  | JObj kvs =>
      let items :=
        (fix go (kvs : list (string * json)) : string :=
           match kvs with
           | [] => EmptyString
           | (k, x) :: rest =>
               match rest with
               | [] => dumps_str k ++ ": " ++ json_dumps x
               | _ :: _ => dumps_str k ++ ": " ++ json_dumps x ++ ", " ++ go rest
               end
           end) kvs in
      "{" ++ items ++ "}"
  end%string.

End Json.

Import Json.

(* ===================================================================== *)
(** * utils/api_client.py                                                 *)
(* ===================================================================== *)

Module ApiClient.

(** ** The HTTP collaborator *)

(** What the code reads of a [requests.Response]: the status, the raw
    text, and the outcome of [response.json()], which raises when the
    body is not JSON. *)
Record response : Type := {
  status_code : Z;
  text : string;
  json_body : result json
}.

(** [session.get(url, timeout=10)]: the remote service and the network,
    answering with a response or raising (connection error, timeout). *)
Definition session : Type := string -> result response.

(** [IdeogramAPIClient]; [__init__] stores the key, the base URL and the
    session whose headers carry the key. *)
Record IdeogramAPIClient : Type := {
  api_key : string;
  base_url : string;
  session_get : session
}.

Definition init (key : string) (net : session) : IdeogramAPIClient :=
  {| api_key := key;
     base_url := "https://api.ideogram.ai";
     session_get := net |}.

(** ** [check_quota] *)

(** Logging has no effect on the values returned and is left out.
    [None] is [JNull]. *)
Definition check_quota (self : IdeogramAPIClient) : result json :=
  try_except
    (let* response :=
       session_get self (base_url self ++ "/v1/account/quota")%string in
     if status_code response =? 200 then json_body response
     else Ok JNull)
    (fun _ => Ok JNull).

(** ** [get_generation_status] *)

Definition get_generation_status (self : IdeogramAPIClient)
           (generation_id : string) : result json :=
  try_except
    (let* response :=
       session_get self
         (base_url self ++ "/v1/generations/" ++ generation_id)%string in
     if status_code response =? 200 then json_body response
     else Ok JNull)
    (fun _ => Ok JNull).

(** ** [validate_api_key] *)

Definition validate_api_key (self : IdeogramAPIClient)
  : result (bool * string) :=
  try_except
    (let* quota := check_quota self in
     if truthy quota then Ok (true, "API key is valid"%string)
     else
       let* response :=
         session_get self (base_url self ++ "/v1/models")%string in
       if status_code response =? 200 then
         Ok (true, "API key is valid"%string)
       else if status_code response =? 401 then
         Ok (false, "Invalid API key"%string)
       else
         Ok (true, "API key validation inconclusive"%string))
    (fun _ => Ok (true, "Could not validate API key (will try anyway)"%string)).

(** ** [parse_api_error] *)

(** The value returned is whatever the body holds under the key, a [str]
    in the replies of the service; a [str] built by the code itself is a
    [JStr].  The [match] is [isinstance(error, dict)] followed by
    [error.get('message', str(error))]. *)
Definition parse_api_error (response : response) : result json :=
  try_except
    (let* error_data := json_body response in
     let* has_message := contains "message" error_data in
     if has_message then subscript error_data "message"
     else
       let* has_error := contains "error" error_data in
       if has_error then
         let* error := subscript error_data "error" in
         match error with
         | JObj kvs =>
             Ok (default (JStr (py_str error)) (lookup_key "message" kvs))
         | _ => Ok (JStr (py_str error))
         end
       else Ok (JStr (json_dumps error_data)))
    (fun _ =>
       Ok (JStr (if negb (String.eqb (text response) "")
                 then str_prefix 500 (text response)
                 else ("HTTP " ++ str_of_int (status_code response))%string))).

(** ** [calculate_cost] *)

(** Prices in USD per image. *)
Definition base_prices : gmap string float :=
  <["Quality"%string := decimal 9 2]>
    (<["Default"%string := decimal 6 2]>
       (<["Turbo"%string := decimal 3 2]> ∅)).

(** Character reference pricing. *)
Definition character_prices : gmap string float :=
  <["Quality"%string := decimal 10 2]>
    (<["Default"%string := decimal 7 2]>
       (<["Turbo"%string := decimal 4 2]> ∅)).

Definition calculate_cost (image_count : Z) (render_speed : string)
           (use_character : bool) : result float :=
  let prices := if use_character then character_prices else base_prices in
  let price_per_image := default (decimal 7 2) (prices !! render_speed) in
  float_mul_int price_per_image image_count.

(** ** [format_generation_info] *)

Definition nl : string := String newline EmptyString.

(** The f-string between the triple quotes, which begins and ends with
    a line break, then [info.strip()]. *)
Definition format_generation_info (generation_id : string) (image_count : Z)
           (render_speed seed dimensions : string) : result string :=
  let* cost := calculate_cost image_count render_speed true in
  let info :=
    (nl ++ "=== Generation Complete ===" ++ nl
        ++ "ID: " ++ generation_id ++ nl
        ++ "Images: " ++ str_of_int image_count ++ nl
        ++ "Speed: " ++ render_speed ++ nl
        ++ "Seed: " ++ seed ++ nl
        ++ "Dimensions: " ++ dimensions ++ nl
        ++ "Estimated Cost: $" ++ format_3f cost ++ nl
        ++ "=========================" ++ nl)%string in
  Ok (strip info).

End ApiClient.

(* ===================================================================== *)
(** * The part of Pillow the code calls                                   *)
(* ===================================================================== *)

Module PIL.

Definition color : Type := (Z * Z * Z)%type.

Inductive font : Type :=
| TrueType (name : string) (size : Z)
| DefaultFont.

Inductive resampling : Type :=
| NEAREST
| LANCZOS.

(** Pixel data, described by the calls that produced it: the rasters
    themselves are Pillow's business, which operation was applied to
    what, and with which arguments, is the program's. *)
Inductive pixels : Type :=
| Source (id : nat)
| Fill (c : color)
| Band (src : pixels) (i : nat)
| Paste (dst src : pixels) (mask : option pixels)
| Convert (mode : string) (src : pixels)
| Resize (src : pixels) (w h : Z) (filter : resampling)
| DrawText (dst : pixels) (x y : Z) (s : string) (fill : color) (f : font).

(** An [Image.Image] object. *)
Record image : Type := {
  mode : string;
  width : Z;
  height : Z;
  data : pixels
}.

Definition size (im : image) : Z * Z := (width im, height im).

(** Images are objects: a program holds references into a heap, and a
    method such as [paste] or [ImageDraw.text] changes the object it is
    called on, for every holder of a reference to it. *)
Abbreviation ref := nat (only parsing).
Abbreviation heap := (list image) (only parsing).

(** A computation on the heap that returns or raises; whatever it did to
    the heap before raising stays done. *)
Definition M (A : Type) : Type := heap -> result A * heap.

Definition ret {A} (a : A) : M A := fun h => (Ok a, h).

Definition raise {A} (e : exn) : M A := fun h => (Raise e, h).

Definition bindM {A B} (c : M A) (k : A -> M B) : M B :=
  fun h =>
    match c h with
    | (Ok a, h') => k a h'
    | (Raise e, h') => (Raise e, h')
    end.

Definition lift {A} (r : result A) : M A := fun h => (r, h).

(** [try: body / except: handler] *)
Definition try_exceptM {A} (body : M A) (handler : exn -> M A) : M A :=
  fun h =>
    match body h with
    | (Ok a, h') => (Ok a, h')
    | (Raise e, h') => handler e h'
    end.

Definition alloc (im : image) : M ref :=
  fun h => (Ok (length h), h ++ [im]).

(** Reading an object; a reference always designates a live object, and
    a dangling one is reported as an error of the model. *)
Definition read (r : ref) : M image :=
  fun h =>
    match h !! r with
    | Some im => (Ok im, h)
    | None => (Raise ValueError, h)
    end.

Definition write (r : ref) (im : image) : M unit :=
  fun h => (Ok tt, <[r := im]> h).

End PIL.

Import PIL.

Notation "'let!' x := c 'in' k" := (PIL.bindM c (fun x => k))
  (at level 10, x name, c at level 100, k at level 200).

Module PILOps.

(** [Image.new(mode, size, color)] *)
Definition Image_new (mode : string) (size : Z * Z) (c : color) : M ref :=
  if (fst size <? 0) || (snd size <? 0) then raise ValueError
  else alloc {| mode := mode; width := fst size; height := snd size;
                data := Fill c |}.

(** [len(Image.Image.getbands())] of a mode. *)
Definition bands_of_mode (mode : string) : nat :=
  if String.eqb mode "RGB" then 3
  else if String.eqb mode "RGBA" then 4
  else if String.eqb mode "CMYK" then 4
  else if String.eqb mode "RGBX" then 4
  else if String.eqb mode "RGBa" then 4
  else if String.eqb mode "YCbCr" then 3
  else if String.eqb mode "LAB" then 3
  else if String.eqb mode "HSV" then 3
  else if String.eqb mode "LA" then 2
  else if String.eqb mode "La" then 2
  else if String.eqb mode "PA" then 2
  else 1.

Fixpoint alloc_bands (im : image) (i n : nat) : M (list ref) :=
  match n with
  | O => ret []
  | S n' =>
      let! r := alloc {| mode := "L"; width := width im; height := height im;
                         data := Band (data im) i |} in
      let! rs := alloc_bands im (S i) n' in
      ret (r :: rs)
  end.

(** [image.split()]: one new single-band image per band. *)
Definition Image_split (r : ref) : M (list ref) :=
  let! im := read r in
  alloc_bands im 0 (bands_of_mode (mode im)).

(** [xs[i]] on a list *)
Definition list_item {A} (xs : list A) (i : nat) : M A :=
  match xs !! i with
  | Some x => ret x
  | None => raise ValueError
  end.

(** [dst.paste(src, mask=mask)]: [src] is pasted at the origin of [dst],
    which is changed in place; Pillow refuses a mask whose size is not
    the size of [src]. *)
Definition Image_paste (dst src : ref) (mask : option ref) : M unit :=
  let! d := read dst in
  let! s := read src in
  match mask with
  | None =>
      write dst {| mode := mode d; width := width d; height := height d;
                   data := Paste (data d) (data s) None |}
  | Some mr =>
      let! m := read mr in
      if (width m =? width s) && (height m =? height s) then
        write dst {| mode := mode d; width := width d; height := height d;
                     data := Paste (data d) (data s) (Some (data m)) |}
      else raise ValueError
  end.

(** [image.convert(mode)]: a new image. *)
Definition Image_convert (r : ref) (mode' : string) : M ref :=
  let! im := read r in
  alloc {| mode := mode'; width := width im; height := height im;
           data := Convert mode' (data im) |}.

(** [image.resize(size, resample)]: a new image of the size asked for. *)
Definition Image_resize (r : ref) (size : Z * Z) (filter : resampling) : M ref :=
  let! im := read r in
  if (fst size <=? 0) || (snd size <=? 0) then raise ValueError
  else alloc {| mode := mode im; width := fst size; height := snd size;
                data := Resize (data im) (fst size) (snd size) filter |}.

(** The PNG encoder: the number of bytes [image.save(buffer,
    format='PNG')] writes, or the exception it raises. *)
Definition encoder : Type := image -> result Z.

(** [buffer = io.BytesIO(); image.save(buffer, format='PNG');
    buffer.tell()] *)
Definition Image_save_tell (png : encoder) (r : ref) : M Z :=
  let! im := read r in
  lift (png im).

(** Text rendering, which an installation may lack in part or in whole:
    the import of [ImageDraw] and [ImageFont], the two ways to get a
    font, the measure of a line and the drawing of a line may each
    raise. *)
Record text_support : Type := {
  import_ImageDraw_ImageFont : result unit;
  ImageFont_truetype : string -> Z -> result font;
  ImageFont_load_default : result font;
  textbbox : font -> string -> result (Z * Z * Z * Z);
  text_draws : font -> string -> result unit
}.

(** [draw.text((x, y), s, fill=fill, font=f)] on the drawing context of
    image [r]: the image is changed in place. *)
Definition ImageDraw_text (ts : text_support) (r : ref) (x y : Z)
           (s : string) (fill : color) (f : font) : M unit :=
  let! _ := lift (text_draws ts f s) in
  let! im := read r in
  write r {| mode := mode im; width := width im; height := height im;
             data := DrawText (data im) x y s fill f |}.

End PILOps.

Import PILOps.

(* ===================================================================== *)
(** * utils/image_utils.py                                                *)
(* ===================================================================== *)

Module ImageUtils.

(** ** [ensure_rgb] *)

(** The mask expression calls [image.split()] twice, first for [len],
    then for the band of index 3. *)
Definition ensure_rgb (image : ref) : M ref :=
  let! im := read image in
  if negb (String.eqb (mode im) "RGB") then
    if String.eqb (mode im) "RGBA" then
      let! background := Image_new "RGB" (size im) (255, 255, 255) in
      let! bands := Image_split image in
      let! mask :=
        (if (length bands =? 4)%nat then
           let! bands' := Image_split image in
           let! alpha := list_item bands' 3 in
           ret (Some alpha)
         else ret None) in
      let! _ := Image_paste background image mask in
      ret background
    else Image_convert image "RGB"
  else ret image.

(** ** [resize_to_limit] *)

(** [max_size_mb] is a [float]; its default, the [int] 10, behaves as
    the double 10.0 in the comparison and in the division. *)
Definition resize_to_limit (png : encoder) (image : ref)
           (max_size_mb : float) : M ref :=
  let! nbytes := Image_save_tell png image in
  let! current_size_mb := lift (int_true_div nbytes (1024 * 1024)) in
  if flt max_size_mb current_size_mb then
    let! q := lift (float_div max_size_mb current_size_mb) in
    let resize_factor := fmul (fsqrt q) (decimal 9 1) in
    let! im := read image in
    let! w := lift (float_of_int (width im)) in
    let! new_width := lift (int_of_float (fmul w resize_factor)) in
    let! h := lift (float_of_int (height im)) in
    let! new_height := lift (int_of_float (fmul h resize_factor)) in
    let new_width := Z.max new_width 256 in
    let new_height := Z.max new_height 256 in
    Image_resize image (new_width, new_height) LANCZOS
  else ret image.

(** ** [calculate_aspect_ratio] *)

(** The items of the [dict], in insertion order, which is the order of
    iteration. *)
Definition aspect_ratios : list (string * float) :=
  [ ("1:1", decimal 1 0);
    ("4:3", quotient 4 3);
    ("3:4", quotient 3 4);
    ("16:9", quotient 16 9);
    ("9:16", quotient 9 16);
    ("3:2", quotient 3 2);
    ("2:3", quotient 2 3);
    ("5:4", quotient 5 4);
    ("4:5", quotient 4 5);
    ("16:10", quotient 16 10);
    ("10:16", quotient 10 16);
    ("3:1", decimal 3 0);
    ("1:3", quotient 1 3);
    ("2:1", decimal 2 0);
    ("1:2", decimal 5 1) ]%string.

(** [abs(x[1] - ratio)], the key of an item. *)
Definition distance (ratio : float) (x : string * float) : float :=
  fabs (fsub (snd x) ratio).

Definition calculate_aspect_ratio (width height : Z) : result string :=
  let* ratio := int_true_div width height in
  let* closest_ratio := min_by flt (distance ratio) aspect_ratios in
  Ok (fst closest_ratio).

(** ** [validate_image_dimensions] *)

Definition min_dim : Z := 256.
Definition max_dim : Z := 2048.
Definition max_pixels : Z := 4194304.

Definition validate_image_dimensions (width height : Z) : bool * string :=
  if (width <? min_dim) || (height <? min_dim) then
    (false,
     ("Image dimensions too small. Minimum dimension is "
        ++ str_of_int min_dim ++ "px")%string)
  else if (width >? max_dim) || (height >? max_dim) then
    (false,
     ("Image dimensions too large. Maximum dimension is "
        ++ str_of_int max_dim ++ "px")%string)
  else if width * height >? max_pixels then
    (false,
     ("Image resolution too high. Maximum is "
        ++ str_of_int max_pixels ++ " pixels")%string)
  else (true, "Valid dimensions"%string).

(** ** [create_error_image] *)

(** The body of the [for] loop over the lines kept, with the running
    [y_offset]. *)
Fixpoint draw_lines (ts : text_support) (img : ref) (font : font)
         (width : Z) (lines : list string) (y_offset : Z) : M unit :=
  match lines with
  | [] => ret tt
  | line :: rest =>
      let! text_bbox := lift (textbbox ts font line) in
      let '(x0, _, x1, _) := text_bbox in
      let text_width := x1 - x0 in
      let x_position := (width - text_width) / 2 in
      let! _ := ImageDraw_text ts img x_position y_offset line
                  (255, 255, 255) font in
      draw_lines ts img font width rest (y_offset + 25)
  end.

Definition create_error_image (ts : text_support) (message : string)
           (width height : Z) : M ref :=
  let! img := Image_new "RGB" (width, height) (128, 0, 0) in
  let! _ :=
    try_exceptM
      (let! _ := lift (import_ImageDraw_ImageFont ts) in
       let! font :=
         try_exceptM (lift (ImageFont_truetype ts "arial.ttf" 20))
                     (fun _ => lift (ImageFont_load_default ts)) in
       let text_lines := split_lines message in
       let y_offset := height / 2 - Z.of_nat (length text_lines) * 25 in
       draw_lines ts img font width (firstn 10 text_lines) y_offset)
      (fun _ => ret tt) in
  ret img.

End ImageUtils.

Import ApiClient ImageUtils.

(* ===================================================================== *)
(** * Vocabulary of the statements                                        *)
(* ===================================================================== *)

Module Spec.

(** ** Doubles *)

(** A double that is not a NaN is placed by its class, then its exponent,
    then its mantissa; [flt] is the lexicographic order of the places. *)
Definition place (x : float) : Z * Z * Z :=
  match x with
  | S754_nan => (0, 0, 0)
  | S754_zero _ => (0, 0, 0)
  | S754_infinity true => (-2, 0, 0)
  | S754_infinity false => (2, 0, 0)
  | S754_finite true m e => (-1, - e, Zneg m)
  | S754_finite false m e => (1, e, Zpos m)
  end.

Definition place_lt (p q : Z * Z * Z) : Prop :=
  let '(k1, e1, m1) := p in
  let '(k2, e2, m2) := q in
  k1 < k2 \/ (k1 = k2 /\ (e1 < e2 \/ (e1 = e2 /\ m1 < m2))).

(** Doubles that are not below zero: zeros of either sign, positive
    finite values, the positive infinity, and, for convenience, NaN. *)
Definition not_negative (x : float) : Prop :=
  match x with
  | S754_finite true _ _ | S754_infinity true => False
  | _ => True
  end.

(** A zero, or a finite double below [2^K] in absolute value. *)
Definition below_pow2 (K : Z) (x : float) : Prop :=
  match x with
  | S754_zero _ => True
  | S754_finite _ m e => Z.pos (digits2_pos m) + e <= K /\ e <= 971
  | _ => False
  end.

(** ** Sequences *)

(** [m] is the first minimum of [xs]: nothing in [xs] has a smaller key,
    and everything before [m] has a larger one. *)
Definition first_minimum {A K} (ltb : K -> K -> bool) (key : A -> K)
           (xs : list A) (m : A) : Prop :=
  exists before after,
    xs = before ++ m :: after
    /\ (forall y, In y before -> ltb (key m) (key y) = true)
    /\ (forall y, In y xs -> ltb (key y) (key m) = false).

(** ** The API client *)

(** The address probed when the quota gives nothing. *)
Definition models_url (self : IdeogramAPIClient) : string :=
  (base_url self ++ "/v1/models")%string.

(** A field of a body that is an object. *)
Definition field (k : string) (body : json) : option json :=
  match body with
  | JObj kvs => lookup_key k kvs
  | _ => None
  end.

(** What is returned for a body that does not parse. *)
Definition fallback_text (r : response) : json :=
  JStr (if String.eqb (text r) ""
        then ("HTTP " ++ str_of_int (status_code r))%string
        else str_prefix 500 (text r)).

(** The reading of the documentation: a [message] field; else an [error]
    field that is a string, or an object with a [message]; else the
    serialization of the whole body; the raw text, or the status, when
    the body does not parse. *)
Definition documented_parse_api_error (r : response) : json :=
  match json_body r with
  | Raise _ => fallback_text r
  | Ok body =>
      match field "message" body with
      | Some m => m
      | None =>
          match field "error" body with
          | Some (JStr s) => JStr s
          | Some (JObj kvs) =>
              match lookup_key "message" kvs with
              | Some m => m
              | None => JStr (json_dumps body)
              end
          | _ => JStr (json_dumps body)
          end
      end
  end.

(** What the code does with an [error] field: the [message] of an
    object that has one, and [str(error)] in every other case. *)
Definition error_text (error : json) : json :=
  match error with
  | JObj kvs => default (JStr (py_str error)) (lookup_key "message" kvs)
  | _ => JStr (py_str error)
  end.

(** A reply whose body is the JSON text of [body]. *)
Definition reply (status : Z) (body : json) : response :=
  {| status_code := status; text := json_dumps body; json_body := Ok body |}.

(** The address of the quota, and that of a generation. *)
Definition quota_url (self : IdeogramAPIClient) : string :=
  (base_url self ++ "/v1/account/quota")%string.

Definition generation_url (self : IdeogramAPIClient) (generation_id : string)
  : string :=
  (base_url self ++ "/v1/generations/" ++ generation_id)%string.

(** The same client on another network. *)
Definition on_network (self : IdeogramAPIClient) (net : session)
  : IdeogramAPIClient :=
  {| api_key := api_key self; base_url := base_url self; session_get := net |}.

(** A service that answers every address with the same status and the
    same JSON body. *)
Definition answering (status : Z) (body : json) : session :=
  fun _ => Ok (reply status body).

(** The text that [format_generation_info] returns, given the text of
    the cost. *)
Definition receipt (generation_id : string) (image_count : Z)
           (render_speed seed dimensions cost : string) : string :=
  ("=== Generation Complete ===" ++ nl
     ++ "ID: " ++ generation_id ++ nl
     ++ "Images: " ++ str_of_int image_count ++ nl
     ++ "Speed: " ++ render_speed ++ nl
     ++ "Seed: " ++ seed ++ nl
     ++ "Dimensions: " ++ dimensions ++ nl
     ++ "Estimated Cost: $" ++ cost ++ nl
     ++ "=========================")%string.

(** The price of one image with a character reference, in cents. *)
Definition character_cents (render_speed : string) : Z :=
  if String.eqb render_speed "Turbo" then 4
  else if String.eqb render_speed "Quality" then 10
  else 7.

(** An amount of cents written in dollars with three decimals, the last
    of which is 0. *)
Definition dollars (cents : Z) : string :=
  let whole := cents / 100 in
  let rest := cents mod 100 in
  let zero := if rest <? 10 then "0"%string else ""%string in
  (str_of_int whole ++ "." ++ zero ++ str_of_int rest ++ "0")%string.

(** The counts from 0 to [n - 1]. *)
Definition counts (n : Z) : list Z := map Z.of_nat (seq 0 (Z.to_nat n)).

(** The cost printed for a count at a price is the exact amount. *)
Definition prints_exact (price : float) (cents : Z) (n : Z) : bool :=
  match float_mul_int price n with
  | Ok cost => String.eqb (format_3f cost) (dollars (cents * n))
  | Raise _ => false
  end.

Definition error_without_message : json :=
  JObj [("error"%string, JObj [("code"%string, JInt 1)])].

(** A service without a quota endpoint that refuses the key. *)
Definition refusing_service : session :=
  fun url =>
    Ok {| status_code := if String.eqb url "https://api.ideogram.ai/v1/models"
                         then 401 else 404;
          text := "";
          json_body := Raise JSONDecodeError |}.

(** ** Images *)

Definition white : color := (255, 255, 255).

Definition red : color := (128, 0, 0).

Definition band_image (im : image) (i : nat) : image :=
  {| mode := "L"; width := width im; height := height im;
     data := Band (data im) i |}.

(** The image that [ensure_rgb] builds from an RGBA image: white, with
    the image pasted through its own alpha band. *)
Definition composited (im : image) : image :=
  {| mode := "RGB"; width := width im; height := height im;
     data := Paste (Fill white) (data im) (Some (Band (data im) 3)) |}.

Definition converted (im : image) : image :=
  {| mode := "RGB"; width := width im; height := height im;
     data := Convert "RGB" (data im) |}.

(** The image that [resize] builds. *)
Definition resized (im : image) (w h : Z) : image :=
  {| mode := mode im; width := w; height := h;
     data := Resize (data im) w h LANCZOS |}.

(** A photograph with an alpha channel, as a caller would hold one. *)
Definition photo : image :=
  {| mode := "RGBA"; width := 1000; height := 800; data := Source 0 |}.

(** An encoder for which every image takes 20 MB. *)
Definition twenty_mb : encoder := fun _ => Ok (20 * 1024 * 1024).

(** ** [resize_to_limit] *)

(** The factor applied to both sides. *)
Definition scale_factor (max_size_mb current_size_mb : float) : result float :=
  let* q := float_div max_size_mb current_size_mb in
  Ok (fmul (fsqrt q) (decimal 9 1)).

(** The two sides before the clamp: the width and the height, each
    times the factor, each cut to an integer. *)
Definition scaled_sides (im : image) (max_size_mb current_size_mb : float)
  : result (Z * Z) :=
  let* factor := scale_factor max_size_mb current_size_mb in
  let* w := float_of_int (width im) in
  let* new_width := int_of_float (fmul w factor) in
  let* h := float_of_int (height im) in
  let* new_height := int_of_float (fmul h factor) in
  Ok (new_width, new_height).

(** ** [create_error_image] *)

(** The lines of text on an image, oldest first, each with the position
    it was drawn at. *)
Fixpoint drawn (p : pixels) : list (Z * Z * string) :=
  match p with
  | DrawText dst x y s _ _ => drawn dst ++ [(x, y, s)]
  | _ => []
  end.

(** What lies under the text. *)
Fixpoint background (p : pixels) : pixels :=
  match p with
  | DrawText dst _ _ _ _ _ => background dst
  | _ => p
  end.

(** The pitch of the lines, and with it the height of a block of [n]
    lines, are the code's own: 25 for each line. *)
Definition line_pitch : Z := 25.

Definition first_y (message : string) (height : Z) : Z :=
  height / 2 - Z.of_nat (length (split_lines message)) * 25.

(** Where a line goes, left to right: the box of the text is measured
    and centered in the width. *)
Definition x_position (ts : text_support) (f : font) (width : Z)
           (line : string) : Z :=
  match textbbox ts f line with
  | Ok (x0, _, x1, _) => (width - (x1 - x0)) / 2
  | Raise _ => 0
  end.

(** Where the lines go when each of them can be drawn. *)
Fixpoint placed (ts : text_support) (f : font) (width : Z)
         (lines : list string) (y : Z) : list (Z * Z * string) :=
  match lines with
  | [] => []
  | line :: rest =>
      (x_position ts f width line, y, line)
        :: placed ts f width rest (y + line_pitch)
  end.

(** The box of the line could be measured. *)
Definition measured (ts : text_support) (f : font) (s : string) : Prop :=
  exists x0 y0 x1 y1, textbbox ts f s = Ok (x0, y0, x1, y1).

(** A block of lines is centered in a height when what is left above
    its first line and what is left below its last line differ by one
    pixel at most. *)
Definition vertically_centered (height : Z) (texts : list (Z * Z * string))
  : bool :=
  match texts with
  | [] => true
  | (_, top, _) :: _ =>
      let last_y := snd (fst (List.last texts (0, top, EmptyString))) in
      let bottom := last_y + line_pitch in
      Z.abs (top - (height - bottom)) <=? 1
  end.

(** A line is centered in a width when what is left on either side of
    its box differs by one pixel at most. *)
Definition horizontally_centered (width text_width x : Z) : bool :=
  Z.abs (x - (width - (x + text_width))) <=? 1.

(** An installation where all of text rendering works; a character is
    10 wide and 16 high in the font found. *)
Definition full_text_support : text_support :=
  {| import_ImageDraw_ImageFont := Ok tt;
     ImageFont_truetype := fun name size => Ok (TrueType name size);
     ImageFont_load_default := Ok DefaultFont;
     textbbox := fun _ s => Ok (0, 4, 10 * Z.of_nat (String.length s), 20);
     text_draws := fun _ _ => Ok tt |}.

(** An installation without [ImageDraw]. *)
Definition no_text_support : text_support :=
  {| import_ImageDraw_ImageFont := Raise ImportError;
     ImageFont_truetype := fun _ _ => Raise OSError;
     ImageFont_load_default := Raise OSError;
     textbbox := fun _ _ => Raise OSError;
     text_draws := fun _ _ => Raise OSError |}.

Definition two_lines : string :=
  ("Generation failed" ++ String newline "Invalid API key")%string.

(** The image that [full_text_support] gives for [two_lines] at 512 by
    512. *)
Definition error_image_two_lines : image :=
  {| mode := "RGB"; width := 512; height := 512;
     data := DrawText
               (DrawText (Fill red) 171 206 "Generation failed"
                         (255, 255, 255) (TrueType "arial.ttf" 20))
               181 231 "Invalid API key"
               (255, 255, 255) (TrueType "arial.ttf" 20) |}.

End Spec.

Import Spec.

(* ===================================================================== *)
(** * Properties of the run time                                        *)
(* ===================================================================== *)

(** ** The order of doubles *)

Section FloatOrder.

Lemma flt_place (a b : float) :
  a <> S754_nan -> b <> S754_nan ->
  (flt a b = true <-> place_lt (place a) (place b)).
Proof.
  intros Ha Hb. unfold flt, SFltb.
  destruct a as [sa | sa | | sa ma ea]; [| | congruence |];
    (destruct b as [sb | sb | | sb mb eb]; [| | congruence |]);
    destruct sa, sb; cbn;
    try (split; [discriminate | lia]);
    try (split; [intros _; lia | reflexivity]).
  - change (Pos.compare_cont Eq ma mb) with (Pos.compare ma mb).
    destruct (Z.compare_spec ea eb); [destruct (Pos.compare_spec ma mb) |..];
      cbn; split; try discriminate; try reflexivity; lia.
  - change (Pos.compare_cont Eq ma mb) with (Pos.compare ma mb).
    destruct (Z.compare_spec ea eb); [destruct (Pos.compare_spec ma mb) |..];
      cbn; split; try discriminate; try reflexivity; lia.
Qed.

Lemma flt_nan_l (b : float) : flt S754_nan b = false.
Proof. reflexivity. Qed.

Lemma flt_nan_r (a : float) : flt a S754_nan = false.
Proof. now destruct a. Qed.

Lemma flt_irrefl (a : float) : flt a a = false.
Proof.
  destruct (flt a a) eqn:H; [| reflexivity].
  assert (Ha : a <> S754_nan) by (intros ->; discriminate).
  apply flt_place in H; [| assumption..].
  destruct (place a) as [[k e] m]. cbn in H. lia.
Qed.

Lemma flt_trans (a b c : float) :
  flt a b = true -> flt b c = true -> flt a c = true.
Proof.
  intros Hab Hbc.
  assert (Ha : a <> S754_nan) by (intros ->; discriminate).
  assert (Hb : b <> S754_nan) by (intros ->; discriminate).
  assert (Hc : c <> S754_nan) by (intros ->; now rewrite flt_nan_r in Hbc).
  apply flt_place in Hab, Hbc; try assumption.
  apply flt_place; try assumption.
  destruct (place a) as [[k1 e1] m1], (place b) as [[k2 e2] m2],
    (place c) as [[k3 e3] m3]. cbn in *. lia.
Qed.

(** Among doubles that are not NaNs, what is below some [b] is below
    everything that is not below [b]. *)
Lemma flt_below (a b c : float) :
  c <> S754_nan ->
  flt a b = true -> flt c b = false -> flt a c = true.
Proof.
  intros Hc Hab Hcb.
  assert (Ha : a <> S754_nan) by (intros ->; discriminate).
  assert (Hb : b <> S754_nan) by (intros ->; now rewrite flt_nan_r in Hab).
  apply flt_place in Hab; try assumption.
  apply flt_place; try assumption.
  assert (Hn : ~ place_lt (place c) (place b)).
  { intros H. apply flt_place in H; try assumption. congruence. }
  destruct (place a) as [[k1 e1] m1], (place b) as [[k2 e2] m2],
    (place c) as [[k3 e3] m3]. cbn in *. lia.
Qed.

End FloatOrder.

(** ** Rounding never produces a NaN *)

Section RoundingNotNan.

Lemma shr_1_nonneg (mrs : shr_record) :
  0 <= shr_m mrs -> 0 <= shr_m (shr_1 mrs).
Proof.
  destruct mrs as [m r s]. cbn.
  destruct m as [| [p | p |] | p]; cbn; lia.
Qed.

Lemma iter_pos_shr_1_nonneg (p : positive) (mrs : shr_record) :
  0 <= shr_m mrs -> 0 <= shr_m (SpecFloat.iter_pos shr_1 p mrs).
Proof.
  revert mrs. induction p as [p IH | p IH |]; intros mrs H; cbn.
  - apply IH, IH, shr_1_nonneg, H.
  - apply IH, IH, H.
  - apply shr_1_nonneg, H.
Qed.

Lemma shr_fexp_nonneg (m e : Z) (l : location) :
  0 <= m -> 0 <= shr_m (fst (shr_fexp prec emax m e l)).
Proof.
  intros H. unfold shr_fexp, shr.
  assert (H0 : 0 <= shr_m (shr_record_of_loc m l)).
  { destruct l as [| []]; exact H. }
  destruct (_ - e) as [| p | p]; cbn [fst]; try exact H0.
  now apply iter_pos_shr_1_nonneg.
Qed.

Lemma round_nearest_even_nonneg (m : Z) (l : location) :
  0 <= m -> 0 <= round_nearest_even m l.
Proof.
  intros H. destruct l as [| []]; cbn; try lia.
  destruct (Z.even m); lia.
Qed.

Lemma binary_round_aux_not_nan (s : bool) (m e : Z) (l : location) :
  0 <= m -> binary_round_aux prec emax s m e l <> S754_nan.
Proof.
  intros H. unfold binary_round_aux.
  pose proof (shr_fexp_nonneg m e l H) as H1.
  destruct (shr_fexp prec emax m e l) as [mrs' e'] eqn:E1. cbn [fst] in H1.
  pose proof (shr_fexp_nonneg _ e' loc_Exact
                (round_nearest_even_nonneg _ (loc_of_shr_record mrs') H1)) as H2.
  destruct (shr_fexp prec emax (round_nearest_even _ _) e' loc_Exact)
    as [mrs'' e''] eqn:E2. cbn [fst] in H2.
  destruct (shr_m mrs'') as [| p | p]; [discriminate | | lia].
  destruct (_ <=? _); discriminate.
Qed.

Lemma binary_normalize_not_nan (m e : Z) (sz : bool) :
  binary_normalize prec emax m e sz <> S754_nan.
Proof.
  destruct m as [| p | p]; cbn; [discriminate | |];
    unfold binary_round;
    destruct (shl_align _ _ _) as [mz ez];
    apply binary_round_aux_not_nan; lia.
Qed.

Lemma exact_int_finite (n : Z) :
  n <> 0 -> exists s m, exact_int n = S754_finite s m 0.
Proof. destruct n; [congruence | eauto..]. Qed.

Lemma quotient_not_nan (a b : Z) : b <> 0 -> quotient a b <> S754_nan.
Proof.
  intros Hb. unfold quotient.
  destruct (exact_int_finite b Hb) as (sb & mb & ->).
  destruct a as [| pa | pa]; cbn [exact_int SFdiv]; [discriminate | |].
  - destruct (SFdiv_core_binary _ _ _ _ _ _) as [[mz ez] lz] eqn:E.
    apply binary_round_aux_not_nan.
    unfold SFdiv_core_binary in E.
    destruct (Z.div_eucl _ _) as [q r] eqn:D. injection E as <- _ _.
    match type of D with Z.div_eucl ?x ?y = _ =>
      assert (q = x / y) as -> by (unfold Z.div; now rewrite D);
      apply Z.div_pos; [| lia]
    end.
    destruct (_ - _ - _); [lia | apply Z.shiftl_nonneg; lia | lia].
  - destruct (SFdiv_core_binary _ _ _ _ _ _) as [[mz ez] lz] eqn:E.
    apply binary_round_aux_not_nan.
    unfold SFdiv_core_binary in E.
    destruct (Z.div_eucl _ _) as [q r] eqn:D. injection E as <- _ _.
    match type of D with Z.div_eucl ?x ?y = _ =>
      assert (q = x / y) as -> by (unfold Z.div; now rewrite D);
      apply Z.div_pos; [| lia]
    end.
    destruct (_ - _ - _); [lia | apply Z.shiftl_nonneg; lia | lia].
Qed.

Lemma int_true_div_not_nan (a b : Z) (q : float) :
  int_true_div a b = Ok q -> q <> S754_nan.
Proof.
  unfold int_true_div. destruct (b =? 0) eqn:Hb; [discriminate |].
  intros H Hq. apply (quotient_not_nan a b); [lia |].
  destruct (quotient a b); congruence.
Qed.

(** A difference is a NaN only when an operand is one, or both are
    infinities. *)
Lemma fsub_finite_not_nan (s : bool) (m : positive) (e : Z) (y : float) :
  y <> S754_nan -> fsub (S754_finite s m e) y <> S754_nan.
Proof.
  intros Hy. unfold fsub. destruct y as [sy | sy | | sy my ey]; cbn [SFsub];
    [discriminate | discriminate | congruence |].
  apply binary_normalize_not_nan.
Qed.

Lemma fabs_not_nan (x : float) : x <> S754_nan -> fabs x <> S754_nan.
Proof. destruct x; cbn; congruence. Qed.

End RoundingNotNan.

(** ** The size of what rounding produces *)

Section Magnitude.

Lemma digits2_pos_size (p : positive) : digits2_pos p = Pos.size p.
Proof. induction p; cbn; congruence. Qed.

Lemma Zdigits2_log2 (m : Z) : 0 < m -> Zdigits2 m = Z.succ (Z.log2 m).
Proof.
  destruct m as [| p | p]; try lia. intros _. cbn [Zdigits2].
  rewrite digits2_pos_size. destruct p; cbn; lia.
Qed.

Lemma Zdigits2_nonneg (m : Z) : 0 <= Zdigits2 m.
Proof. destruct m; cbn; lia. Qed.

(** A number below [2^k] has at most [k] digits. *)
Lemma Zdigits2_le (m k : Z) : 0 <= m -> 0 <= k -> m < 2 ^ k -> Zdigits2 m <= k.
Proof.
  intros Hm Hk H. destruct (Z.eq_dec m 0) as [-> | Hne]; [cbn; lia |].
  rewrite Zdigits2_log2 by lia.
  apply Z.log2_lt_pow2 in H; lia.
Qed.

Lemma Zdigits2_gt (m : Z) : 0 <= m -> m < 2 ^ Zdigits2 m.
Proof.
  intros Hm. destruct (Z.eq_dec m 0) as [-> | Hne]; [cbn; lia |].
  rewrite Zdigits2_log2 by lia. apply Z.log2_spec. lia.
Qed.

Lemma Zdigits2_ge (m : Z) : 0 < m -> 2 ^ (Zdigits2 m - 1) <= m.
Proof.
  intros Hm. rewrite Zdigits2_log2 by lia.
  replace (Z.succ (Z.log2 m) - 1) with (Z.log2 m) by lia.
  apply Z.log2_spec. lia.
Qed.

Lemma shr_1_div2 (mrs : shr_record) :
  0 <= shr_m mrs -> shr_m (shr_1 mrs) = shr_m mrs / 2.
Proof.
  destruct mrs as [m r s]. cbn [shr_m]. intros H.
  destruct m as [| [p | p |] | p]; cbn [shr_1 shr_m]; try lia.
  - reflexivity.
  - apply Z.div_unique with 1; lia.
  - apply Z.div_unique with 0; lia.
  - reflexivity.
Qed.

Lemma iter_pos_shr_1_div (p : positive) (mrs : shr_record) :
  0 <= shr_m mrs ->
  shr_m (SpecFloat.iter_pos shr_1 p mrs) = shr_m mrs / 2 ^ Zpos p.
Proof.
  revert mrs. induction p as [p IH | p IH |]; intros mrs H; cbn [SpecFloat.iter_pos].
  - rewrite IH, IH, shr_1_div2; try assumption.
    + rewrite !Z.div_div by lia. f_equal.
      replace (Z.pos p~1) with (1 + Z.pos p + Z.pos p) by lia.
      rewrite !Z.pow_add_r, Z.pow_1_r by lia. ring.
    + now apply shr_1_nonneg.
    + apply iter_pos_shr_1_nonneg. now apply shr_1_nonneg.
  - rewrite IH, IH; try assumption.
    + rewrite !Z.div_div by lia. f_equal.
      replace (Z.pos p~0) with (Z.pos p + Z.pos p) by lia.
      rewrite !Z.pow_add_r by lia. ring.
    + now apply iter_pos_shr_1_nonneg.
  - rewrite shr_1_div2 by assumption. reflexivity.
Qed.


Lemma Zdigits2_div_pow2 (m n : Z) :
  0 <= m -> 0 < n -> Zdigits2 (m / 2 ^ n) <= Z.max 0 (Zdigits2 m - n).
Proof.
  intros Hm Hn.
  assert (H0 : 0 <= m / 2 ^ n) by (apply Z.div_pos; lia).
  pose proof (Zdigits2_nonneg m) as Hd.
  pose proof (Zdigits2_gt m Hm) as Hlt.
  destruct (Z.le_gt_cases (Zdigits2 m) n) as [Hle | Hgt].
  - rewrite Z.div_small; [cbn; lia |]. split; [lia |].
    apply Z.lt_le_trans with (2 ^ Zdigits2 m); [assumption |].
    apply Z.pow_le_mono_r; lia.
  - apply Z.le_trans with (Zdigits2 m - n); [| lia].
    apply Zdigits2_le; [assumption | lia |].
    apply Z.div_lt_upper_bound; [lia |].
    rewrite <- Z.pow_add_r by lia.
    now replace (n + (Zdigits2 m - n)) with (Zdigits2 m) by lia.
Qed.

Lemma Zdigits2_succ (m : Z) : 0 <= m -> Zdigits2 (m + 1) <= Zdigits2 m + 1.
Proof.
  intros Hm. pose proof (Zdigits2_nonneg m). pose proof (Zdigits2_gt m Hm).
  apply Zdigits2_le; [lia | lia |].
  rewrite Z.pow_add_r, Z.pow_1_r by lia. lia.
Qed.

Lemma fexp_le (x K : Z) : x <= K -> -1074 <= K -> fexp prec emax x <= K.
Proof. unfold fexp, emin, prec, emax. lia. Qed.

Lemma fexp_le_971 (x : Z) : x <= 1024 -> fexp prec emax x <= 971.
Proof. unfold fexp, emin, prec, emax. lia. Qed.

(** One alignment keeps the mantissa non-negative, the exponent at most
    971, and the magnitude at most what it was. *)
Lemma shr_fexp_bound (m e : Z) (l : location) (K : Z) :
  0 <= m -> e <= 971 -> Zdigits2 m + e <= K -> -1074 <= K <= 1024 ->
  0 <= shr_m (fst (shr_fexp prec emax m e l))
  /\ snd (shr_fexp prec emax m e l) <= 971
  /\ Zdigits2 (shr_m (fst (shr_fexp prec emax m e l)))
     + snd (shr_fexp prec emax m e l) <= K.
Proof.
  intros Hm He HK HKr. split; [now apply shr_fexp_nonneg |].
  unfold shr_fexp, shr.
  assert (Hrec : shr_m (shr_record_of_loc m l) = m)
    by (destruct l as [| []]; reflexivity).
  destruct (fexp prec emax (Zdigits2 m + e) - e) as [| p | p] eqn:Hn;
    cbn [fst snd]; rewrite ?Hrec; try (split; assumption).
  rewrite iter_pos_shr_1_div by (rewrite Hrec; exact Hm). rewrite Hrec.
  pose proof (Zdigits2_div_pow2 m (Z.pos p) Hm ltac:(lia)) as Hd.
  pose proof (fexp_le (Zdigits2 m + e) K HK ltac:(lia)).
  pose proof (fexp_le_971 (Zdigits2 m + e) ltac:(lia)).
  split; lia.
Qed.

(** Rounding a number of magnitude at most [K] gives a zero or a finite
    double of magnitude at most [K + 1]: no infinity, no NaN. *)
Lemma binary_round_aux_bound (s : bool) (m e : Z) (l : location) (K : Z) :
  0 <= m -> e <= 971 -> Zdigits2 m + e <= K -> -1074 <= K <= 1023 ->
  match binary_round_aux prec emax s m e l with
  | S754_zero _ => True
  | S754_finite _ m' e' => Z.pos (digits2_pos m') + e' <= K + 1 /\ e' <= 971
  | _ => False
  end.
Proof.
  intros Hm He HK HKr. unfold binary_round_aux.
  destruct (shr_fexp_bound m e l K Hm He HK ltac:(lia)) as (H1 & H2 & H3).
  destruct (shr_fexp prec emax m e l) as [mrs' e']. cbn [fst snd] in *.
  set (m1 := round_nearest_even (shr_m mrs') (loc_of_shr_record mrs')).
  assert (Hm1 : 0 <= m1) by (now apply round_nearest_even_nonneg).
  assert (Hd1 : Zdigits2 m1 + e' <= K + 1).
  { pose proof (Zdigits2_succ (shr_m mrs') H1).
    subst m1. unfold round_nearest_even.
    destruct (loc_of_shr_record mrs') as [| []]; try lia.
    destruct (Z.even _); lia. }
  destruct (shr_fexp_bound m1 e' loc_Exact (K + 1) Hm1 H2 Hd1 ltac:(lia))
    as (H4 & H5 & H6).
  destruct (shr_fexp prec emax m1 e' loc_Exact) as [mrs'' e'']. cbn [fst snd] in *.
  destruct (shr_m mrs'') as [| p | p]; [exact I | | lia].
  replace (e'' <=? emax - prec) with true by (unfold emax, prec; lia).
  cbn [Zdigits2] in H6. split; assumption.
Qed.


Lemma Zdigits2_mul_pow2 (m n : Z) :
  0 <= m -> 0 <= n -> Zdigits2 (m * 2 ^ n) <= Zdigits2 m + n.
Proof.
  intros Hm Hn. pose proof (Zdigits2_nonneg m). pose proof (Zdigits2_gt m Hm).
  apply Zdigits2_le; [| lia |].
  - apply Z.mul_nonneg_nonneg; lia.
  - rewrite Z.pow_add_r by lia. apply Z.mul_lt_mono_pos_r; lia.
Qed.

Lemma Zdigits2_mul (a b : Z) :
  0 <= a -> 0 <= b -> Zdigits2 (a * b) <= Zdigits2 a + Zdigits2 b.
Proof.
  intros Ha Hb.
  pose proof (Zdigits2_nonneg a). pose proof (Zdigits2_nonneg b).
  pose proof (Zdigits2_gt a Ha). pose proof (Zdigits2_gt b Hb).
  apply Zdigits2_le; [| lia |].
  - apply Z.mul_nonneg_nonneg; lia.
  - rewrite Z.pow_add_r by lia. nia.
Qed.

Lemma Zdigits2_div (a b : Z) :
  0 <= a -> 0 < b -> Zdigits2 (a / b) <= Z.max 0 (Zdigits2 a - Zdigits2 b + 1).
Proof.
  intros Ha Hb.
  pose proof (Zdigits2_ge b Hb) as Hge.
  assert (Hdb : 1 <= Zdigits2 b).
  { destruct b; cbn; lia. }
  destruct (Z.eq_dec (Zdigits2 b) 1) as [E | E].
  - (* nothing to gain from the divisor *)
    apply Z.le_trans with (Zdigits2 a); [| lia].
    pose proof (Zdigits2_nonneg a). pose proof (Zdigits2_gt a Ha).
    apply Zdigits2_le; [apply Z.div_pos; lia | lia |].
    apply Z.le_lt_trans with a; [| assumption].
    apply Z.div_le_upper_bound; nia.
  - apply Z.le_trans with (Zdigits2 (a / 2 ^ (Zdigits2 b - 1))).
    + assert (H1 : 0 <= a / b) by (apply Z.div_pos; lia).
      assert (H2 : a / b <= a / 2 ^ (Zdigits2 b - 1)).
      { apply Z.div_le_compat_l; [assumption |]. split; [| assumption].
        apply Z.pow_pos_nonneg; lia. }
      pose proof (Zdigits2_nonneg (a / 2 ^ (Zdigits2 b - 1))).
      apply Zdigits2_le; [assumption | assumption |].
      apply Z.le_lt_trans with (a / 2 ^ (Zdigits2 b - 1)); [assumption |].
      apply Zdigits2_gt. lia.
    + pose proof (Zdigits2_div_pow2 a (Zdigits2 b - 1) Ha ltac:(lia)). lia.
Qed.

Lemma Zdigits2_sqrt (a : Z) :
  0 <= a -> Zdigits2 (Z.sqrt a) <= (Zdigits2 a + 1) / 2.
Proof.
  intros Ha. pose proof (Zdigits2_nonneg a) as Hd.
  pose proof (Zdigits2_gt a Ha) as Hlt.
  assert (Hh : 0 <= (Zdigits2 a + 1) / 2) by (apply Z.div_pos; lia).
  apply Zdigits2_le; [apply Z.sqrt_nonneg | assumption |].
  apply Z.sqrt_lt_square; [assumption | apply Z.pow_nonneg; lia |].
  rewrite <- Z.pow_add_r by lia.
  apply Z.lt_le_trans with (2 ^ Zdigits2 a); [assumption |].
  apply Z.pow_le_mono_r; [lia |].
  pose proof (Z.div_mod (Zdigits2 a + 1) 2 ltac:(lia)).
  pose proof (Z.mod_pos_bound (Zdigits2 a + 1) 2 ltac:(lia)). lia.
Qed.

Lemma shl_align_bound (mx : positive) (ex ex' : Z) :
  snd (shl_align mx ex ex') <= ex
  /\ Zdigits2 (Z.pos (fst (shl_align mx ex ex'))) + snd (shl_align mx ex ex')
     <= Zdigits2 (Z.pos mx) + ex.
Proof.
  unfold shl_align. destruct (ex' - ex) as [| d | d] eqn:E; cbn [fst snd];
    try lia.
  split; [lia |].
  change (Pos.iter xO mx d) with (shift_pos d mx).
  rewrite shift_pos_correct.
  change (Z.pow_pos 2 d) with (2 ^ Z.pos d).
  rewrite Z.mul_comm.
  pose proof (Zdigits2_mul_pow2 (Z.pos mx) (Z.pos d) ltac:(lia) ltac:(lia)).
  lia.
Qed.


Lemma below_pow2_mono (K K' : Z) (x : float) :
  K <= K' -> below_pow2 K x -> below_pow2 K' x.
Proof. destruct x; cbn; try easy. lia. Qed.

Lemma digits2_pos_pos (m : positive) : 1 <= Z.pos (digits2_pos m).
Proof. lia. Qed.

Lemma binary_round_aux_below (s : bool) (m e : Z) (l : location) (K : Z) :
  0 <= m -> e <= 971 -> Zdigits2 m + e <= K -> -1074 <= K <= 1023 ->
  below_pow2 (K + 1) (binary_round_aux prec emax s m e l).
Proof.
  intros Hm He HK HKr.
  pose proof (binary_round_aux_bound s m e l K Hm He HK HKr) as H.
  destruct (binary_round_aux prec emax s m e l); cbn; auto.
Qed.

Lemma binary_round_below (s : bool) (mx : positive) (ex K : Z) :
  ex <= 971 -> Zdigits2 (Z.pos mx) + ex <= K -> -1074 <= K <= 1023 ->
  below_pow2 (K + 1) (binary_round prec emax s mx ex).
Proof.
  intros He HK HKr. unfold binary_round.
  pose proof (shl_align_bound mx ex
                (fexp prec emax (Z.pos (digits2_pos mx) + ex))) as [H1 H2].
  destruct (shl_align mx ex _) as [mz ez]. cbn [fst snd] in *.
  apply binary_round_aux_below; lia.
Qed.

(** An [int] below [2^1023] in absolute value converts to a double. *)
Lemma float_of_int_below (n K : Z) :
  Zdigits2 n <= K -> 0 <= K <= 1023 ->
  exists f, float_of_int n = Ok f /\ below_pow2 (K + 1) f.
Proof.
  intros HK HKr. unfold float_of_int.
  assert (H : below_pow2 (K + 1) (binary_normalize prec emax n 0 false)).
  { destruct n as [| p | p]; cbn [binary_normalize]; [exact I | |];
      apply binary_round_below; cbn [Zdigits2] in *; lia. }
  destruct (binary_normalize prec emax n 0 false); cbn in H; try easy; eauto.
Qed.

Lemma SFdiv_finite_below (s1 s2 : bool) (m1 m2 : positive) (e1 e2 K : Z) :
  e1 - e2 <= 971 ->
  Z.pos (digits2_pos m1) + e1 - (Z.pos (digits2_pos m2) + e2) + 1 <= K ->
  e1 - e2 <= K ->
  -1074 <= K <= 1023 ->
  below_pow2 (K + 1)
    (SFdiv prec emax (S754_finite s1 m1 e1) (S754_finite s2 m2 e2)).
Proof.
  intros He HK HK' HKr. cbn [SFdiv].
  destruct (SFdiv_core_binary prec emax (Z.pos m1) e1 (Z.pos m2) e2)
    as [[q e'] l] eqn:E.
  unfold SFdiv_core_binary in E.
  set (e0 := Z.min (fexp prec emax _) (e1 - e2)) in E.
  assert (He0 : e0 <= e1 - e2) by (subst e0; lia).
  set (m' := match e1 - e2 - e0 with
             | 0 => Z.pos m1
             | Z.pos _ => Z.shiftl (Z.pos m1) (e1 - e2 - e0)
             | Z.neg _ => 0
             end) in E.
  assert (Hm' : m' = Z.pos m1 * 2 ^ (e1 - e2 - e0)).
  { subst m'. destruct (e1 - e2 - e0) as [| p | p] eqn:Es; [| | lia].
    - rewrite Z.pow_0_r. lia.
    - rewrite Z.shiftl_mul_pow2 by lia. reflexivity. }
  destruct (Z.div_eucl m' (Z.pos m2)) as [q' r] eqn:D.
  injection E as <- <- _.
  assert (Hq : q' = m' / Z.pos m2) by (unfold Z.div; now rewrite D).
  assert (H0 : 0 <= m') by (rewrite Hm'; apply Z.mul_nonneg_nonneg; lia).
  apply binary_round_aux_below; try lia.
  - rewrite Hq. apply Z.div_pos; lia.
  - pose proof (Zdigits2_div m' (Z.pos m2) H0 ltac:(lia)) as Hd.
    pose proof (Zdigits2_mul_pow2 (Z.pos m1) (e1 - e2 - e0)
                  ltac:(lia) ltac:(lia)) as Hs.
    rewrite <- Hm' in Hs. rewrite <- Hq in Hd.
    cbn [Zdigits2] in *. lia.
Qed.

(** The quotient of two [int]s is a double when the dividend has at
    most 1022 digits more than the divisor. *)
Lemma quotient_below (a b K : Z) :
  b <> 0 -> Zdigits2 a - Zdigits2 b + 1 <= K -> 0 <= K <= 1023 ->
  below_pow2 (K + 1) (quotient a b).
Proof.
  intros Hb HK HKr. unfold quotient.
  destruct b as [| pb | pb]; [congruence | |];
    (destruct a as [| pa | pa]; cbn [exact_int]; [exact I | |]);
    apply SFdiv_finite_below; cbn [Zdigits2] in *; lia.
Qed.

Lemma int_true_div_below (a b K : Z) :
  b <> 0 -> Zdigits2 a - Zdigits2 b + 1 <= K -> 0 <= K <= 1023 ->
  int_true_div a b = Ok (quotient a b) /\ below_pow2 (K + 1) (quotient a b).
Proof.
  intros Hb HK HKr. pose proof (quotient_below a b K Hb HK HKr) as H.
  split; [| exact H]. unfold int_true_div.
  replace (b =? 0) with false by lia.
  destruct (quotient a b); cbn in H; try easy.
Qed.

Lemma fmul_below (x y : float) (Kx Ky : Z) :
  below_pow2 Kx x -> below_pow2 Ky y -> Kx + Ky <= 973 ->
  below_pow2 (Z.max (Kx + Ky) (-1074) + 1) (fmul x y).
Proof.
  destruct x as [sx | | | sx mx ex]; destruct y as [sy | | | sy my ey];
    cbn [below_pow2]; try easy; try (intros; exact I).
  intros [Hx Hex] [Hy Hey] HK. unfold fmul. cbn [SFmul].
  pose proof (digits2_pos_pos mx). pose proof (digits2_pos_pos my).
  apply binary_round_aux_below; try lia.
  pose proof (Zdigits2_mul (Z.pos mx) (Z.pos my) ltac:(lia) ltac:(lia)) as H'.
  cbn [Zdigits2] in H'. change (Z.pos (mx * my)) with (Z.pos mx * Z.pos my).
  cbn [Zdigits2]. lia.
Qed.

Lemma int_of_float_below (x : float) (K : Z) :
  below_pow2 K x -> exists n, int_of_float x = Ok n.
Proof. destruct x; cbn; try easy; eauto. Qed.


Lemma fsqrt_below (x : float) (K : Z) :
  below_pow2 K x -> not_negative x -> K <= 1023 ->
  below_pow2 (Z.max ((K + 1) / 2) (-1074) + 1) (fsqrt x).
Proof.
  destruct x as [s | | | [] m e]; cbn [below_pow2 not_negative]; try easy.
  intros [Hm He] _ HK. unfold fsqrt. cbn [SFsqrt].
  destruct (SFsqrt_core_binary prec emax (Z.pos m) e) as [[q e'] l] eqn:E.
  unfold SFsqrt_core_binary in E.
  set (e0 := Z.min (fexp prec emax _) (Z.div2 e)) in E.
  assert (He0 : 2 * e0 <= e).
  { subst e0. rewrite Z.div2_div.
    pose proof (Z.div_mod e 2 ltac:(lia)).
    pose proof (Z.mod_pos_bound e 2 ltac:(lia)). lia. }
  assert (He0' : e0 <= 971).
  { subst e0. rewrite Z.div2_div.
    pose proof (Z.div_mod e 2 ltac:(lia)).
    pose proof (Z.mod_pos_bound e 2 ltac:(lia)). lia. }
  set (m' := match e - 2 * e0 with
             | 0 => Z.pos m
             | Z.pos _ => Z.shiftl (Z.pos m) (e - 2 * e0)
             | Z.neg _ => 0
             end) in E.
  assert (Hm' : m' = Z.pos m * 2 ^ (e - 2 * e0)).
  { subst m'. destruct (e - 2 * e0) as [| p | p] eqn:Es; [| | lia].
    - rewrite Z.pow_0_r. lia.
    - rewrite Z.shiftl_mul_pow2 by lia. reflexivity. }
  assert (H0 : 0 <= m') by (rewrite Hm'; apply Z.mul_nonneg_nonneg; lia).
  pose proof (Z.sqrtrem_sqrt m') as Hs.
  destruct (Z.sqrtrem m') as [q' r]. cbn [fst] in Hs.
  injection E as <- <- _. subst q'.
  apply binary_round_aux_below; try lia.
  - apply Z.sqrt_nonneg.
  - pose proof (Zdigits2_sqrt m' H0) as Hd.
    pose proof (Zdigits2_mul_pow2 (Z.pos m) (e - 2 * e0)
                  ltac:(lia) ltac:(lia)) as Hsh.
    rewrite <- Hm' in Hsh. cbn [Zdigits2] in Hsh.
    assert (Hhalf : (Zdigits2 m' + 1) / 2 + e0 <= (K + 1) / 2).
    { replace ((Zdigits2 m' + 1) / 2 + e0)
        with ((Zdigits2 m' + 1 + e0 * 2) / 2)
        by (rewrite Z.div_add by lia; reflexivity).
      apply Z.div_le_mono; lia. }
    lia.
  - assert (Hhalf : (K + 1) / 2 <= 512).
    { apply Z.div_le_upper_bound; lia. }
    lia.
Qed.

(** A valid double has at most 53 digits. *)
Lemma valid_binary_digits (s : bool) (m : positive) (e : Z) :
  valid_binary prec emax (S754_finite s m e) = true ->
  Z.pos (digits2_pos m) <= 53.
Proof.
  cbn [valid_binary]. unfold bounded, canonical_mantissa.
  intros H. apply andb_prop in H as [H _]. apply Z.eqb_eq in H.
  unfold fexp, emin, prec, emax in H. lia.
Qed.

End Magnitude.

(** ** [min] with a key *)

Section MinBy.

Context {A K : Type}.
Variable ltb : K -> K -> bool.
Variable key : A -> K.
Variable good : K -> Prop.

Hypothesis ltb_irrefl : forall a, ltb a a = false.
Hypothesis ltb_trans :
  forall a b c, ltb a b = true -> ltb b c = true -> ltb a c = true.
Hypothesis ltb_below :
  forall a b c, good c -> ltb a b = true -> ltb c b = false -> ltb a c = true.

Lemma fold_left_step_first_minimum (rest before mid : list A) (b : A) :
  (forall y, In y (before ++ b :: mid ++ rest) -> good (key y)) ->
  (forall y, In y before -> ltb (key b) (key y) = true) ->
  (forall y, In y (before ++ b :: mid) -> ltb (key y) (key b) = false) ->
  first_minimum ltb key (before ++ b :: mid ++ rest)
                (fold_left (min_step ltb key) rest b).
Proof.
  revert before mid b.
  induction rest as [| y rest IH]; intros before mid b Hgood Hbefore Hall.
  - cbn. exists before, mid. rewrite app_nil_r. auto.
  - cbn [fold_left]. unfold min_step at 2.
    destruct (ltb (key y) (key b)) eqn:Hy.
    + replace (before ++ b :: mid ++ y :: rest)
        with ((before ++ b :: mid) ++ y :: [] ++ rest) in *
        by (now rewrite <- app_assoc).
      apply IH.
      * assumption.
      * intros z Hz. apply ltb_below with (b := key b); auto.
        apply Hgood. apply in_or_app. now left.
      * intros z Hz. apply in_app_or in Hz as [Hz | [<- | []]].
        -- destruct (ltb (key z) (key y)) eqn:Hzy; [| reflexivity].
           rewrite <- (Hall z Hz). symmetry.
           now apply ltb_trans with (b := key y).
        -- apply ltb_irrefl.
    + replace (before ++ b :: mid ++ y :: rest)
        with (before ++ b :: (mid ++ [y]) ++ rest) in *
        by (now rewrite <- app_assoc).
      apply IH.
      * assumption.
      * assumption.
      * intros z Hz. rewrite app_comm_cons, app_assoc in Hz.
        apply in_app_or in Hz as [Hz | [<- | []]]; auto.
Qed.

(** [min] returns the first minimum of a sequence that is not empty. *)
Lemma min_by_first_minimum (xs : list A) :
  xs <> [] ->
  (forall y, In y xs -> good (key y)) ->
  exists m, min_by ltb key xs = Ok m /\ first_minimum ltb key xs m.
Proof.
  intros Hne Hgood. destruct xs as [| x rest]; [congruence |].
  eexists. split; [reflexivity |].
  apply (fold_left_step_first_minimum rest [] [] x).
  - exact Hgood.
  - intros y [].
  - intros y [<- | []]. apply ltb_irrefl.
Qed.

End MinBy.

(** ** The heap of images *)

Section Heap.

Lemma bindM_ok {A B} (c : M A) (k : A -> M B) (h h' : heap) (a : A) :
  c h = (Ok a, h') -> bindM c k h = k a h'.
Proof. unfold bindM. now intros ->. Qed.

Lemma bindM_raise {A B} (c : M A) (k : A -> M B) (h h' : heap) (e : exn) :
  c h = (Raise e, h') -> bindM c k h = (Raise e, h').
Proof. unfold bindM. now intros ->. Qed.

Lemma read_ok (r : ref) (im : image) (h : heap) :
  h !! r = Some im -> read r h = (Ok im, h).
Proof. unfold read. now intros ->. Qed.

Lemma read_app (r : ref) (im : image) (h k : heap) :
  h !! r = Some im -> read r (h ++ k) = (Ok im, h ++ k).
Proof. intros H. apply read_ok. now apply lookup_app_l_Some. Qed.

Lemma read_new (h k : heap) (i : nat) (im : image) :
  k !! i = Some im -> read (length h + i)%nat (h ++ k) = (Ok im, h ++ k).
Proof.
  intros H. apply read_ok. rewrite lookup_app_r by lia.
  now replace (length h + i - length h)%nat with i by lia.
Qed.

Lemma read_fresh (h k : heap) (im : image) :
  read (length h) (h ++ im :: k) = (Ok im, h ++ im :: k).
Proof.
  apply read_ok. rewrite lookup_app_r by lia.
  now rewrite Nat.sub_diag.
Qed.

Lemma write_fresh (h k : heap) (im im' : image) :
  write (length h) im' (h ++ im :: k) = (Ok tt, h ++ im' :: k).
Proof.
  unfold write. f_equal.
  rewrite <- (Nat.add_0_r (length h)) at 1. now rewrite insert_app_r.
Qed.

Lemma alloc_bands_spec (im : image) (n i : nat) (h : heap) :
  alloc_bands im i n h
  = (Ok (map (fun j => (length h + j)%nat) (seq 0 n)),
     h ++ map (fun j => band_image im (i + j)) (seq 0 n)).
Proof.
  revert i h. induction n as [| n IH]; intros i h.
  - cbn. now rewrite app_nil_r.
  - cbn [alloc_bands]. unfold bindM at 1. unfold alloc at 1.
    unfold bindM at 1. rewrite IH. unfold ret.
    rewrite length_app. cbn [length seq map].
    rewrite <- !seq_shift, !map_map, <- app_assoc. cbn [app].
    f_equal.
    + f_equal. f_equal; [f_equal; lia |].
      apply map_ext. intros j. lia.
    + f_equal. f_equal; [unfold band_image; do 2 f_equal; lia |].
      apply map_ext. intros j. f_equal. lia.
Qed.

Lemma Image_split_spec (r : ref) (im : image) (h k : heap) :
  h !! r = Some im ->
  Image_split r (h ++ k)
  = (Ok (map (fun j => (length (h ++ k) + j)%nat)
             (seq 0 (bands_of_mode (mode im)))),
     (h ++ k) ++ map (fun j => band_image im j)
                     (seq 0 (bands_of_mode (mode im)))).
Proof.
  intros H. unfold Image_split.
  rewrite (bindM_ok _ _ _ _ _ (read_app r im h k H)).
  apply alloc_bands_spec.
Qed.

End Heap.

(* ===================================================================== *)
(** * Properties of utils/api_client.py                                 *)
(* ===================================================================== *)

(** ** [calculate_cost] *)

Section CalculateCost.

Lemma lookup_character_prices_other (s : string) :
  s <> "Turbo"%string -> s <> "Default"%string -> s <> "Quality"%string ->
  character_prices !! s = None.
Proof.
  intros Ht Hd Hq. unfold character_prices.
  rewrite !lookup_insert_ne by congruence. apply lookup_empty.
Qed.

Lemma lookup_base_prices_other (s : string) :
  s <> "Turbo"%string -> s <> "Default"%string -> s <> "Quality"%string ->
  base_prices !! s = None.
Proof.
  intros Ht Hd Hq. unfold base_prices.
  rewrite !lookup_insert_ne by congruence. apply lookup_empty.
Qed.

(** C1. For every image count [n], the cost of [n] images at the Turbo
    tier with a character reference is the float product [0.04 * n], at
    the Quality tier without one it is [0.09 * n], and at a tier that is
    none of Turbo, Default and Quality it is [0.07 * n] whatever the
    flag.  The product is Python's: the same double, or the same
    [OverflowError] when [n] is too large to be converted. *)
Theorem calculate_cost_documented_prices (n : Z) :
  calculate_cost n "Turbo" true = float_mul_int (decimal 4 2) n
  /\ calculate_cost n "Quality" false = float_mul_int (decimal 9 2) n
  /\ (forall (render_speed : string) (use_character : bool),
         render_speed <> "Turbo"%string ->
         render_speed <> "Default"%string ->
         render_speed <> "Quality"%string ->
         calculate_cost n render_speed use_character
         = float_mul_int (decimal 7 2) n).
Proof.
  split; [reflexivity | split; [reflexivity |]].
  intros s b Ht Hd Hq. unfold calculate_cost.
  destruct b.
  - now rewrite lookup_character_prices_other.
  - now rewrite lookup_base_prices_other.
Qed.

Lemma calculate_cost_documented_prices_witness :
  calculate_cost 3 "Ultra" false = float_mul_int (decimal 7 2) 3.
Proof.
  apply (proj2 (proj2 (calculate_cost_documented_prices 3)));
    discriminate.
Defined.

(** C10. The four entries of the two tables that C1 leaves out, and
    their consequence: with a character reference an unknown tier costs
    what the Default tier costs. *)
Theorem calculate_cost_remaining_prices (n : Z) :
  calculate_cost n "Turbo" false = float_mul_int (decimal 3 2) n
  /\ calculate_cost n "Default" false = float_mul_int (decimal 6 2) n
  /\ calculate_cost n "Default" true = float_mul_int (decimal 7 2) n
  /\ calculate_cost n "Quality" true = float_mul_int (decimal 10 2) n
  /\ (forall render_speed : string,
         render_speed <> "Turbo"%string ->
         render_speed <> "Default"%string ->
         render_speed <> "Quality"%string ->
         calculate_cost n render_speed true
         = calculate_cost n "Default" true).
Proof.
  repeat (split; [reflexivity |]).
  intros s Ht Hd Hq. unfold calculate_cost.
  now rewrite lookup_character_prices_other.
Qed.

Lemma calculate_cost_remaining_prices_witness :
  calculate_cost 2 "Draft" true = calculate_cost 2 "Default" true.
Proof.
  apply (proj2 (proj2 (proj2 (proj2 (calculate_cost_remaining_prices 2)))));
    discriminate.
Defined.

(** The product is a double for every count below [2^1023] in absolute
    value: on these the function returns, at every tier. *)
Lemma calculate_cost_returns (n : Z) (render_speed : string)
      (use_character : bool) :
  Z.abs n < 2 ^ 1023 ->
  exists count cost,
    float_of_int n = Ok count
    /\ calculate_cost n render_speed use_character = Ok cost.
Proof.
  intros Hn.
  assert (Hd : Zdigits2 n <= 1023).
  { replace (Zdigits2 n) with (Zdigits2 (Z.abs n)) by (now destruct n).
    apply Zdigits2_le; lia. }
  destruct (float_of_int_below n 1023 Hd ltac:(lia)) as (f & Hf & _).
  exists f. unfold calculate_cost, float_mul_int. rewrite Hf. cbn. eauto.
Qed.

(** The literal [0.04] is the double [0x1.47ae147ae147bp-5]. *)
Example decimal_0_04 :
  decimal 4 2 = S754_finite false 5764607523034235 (-57).
Proof. reflexivity. Qed.

(** The doubles themselves, on one input: three images at the Default
    tier with a character reference cost 0.21000000000000002, the
    double [7566047373982434 * 2^-55]. *)
Example calculate_cost_3_default :
  calculate_cost 3 "Default" true
  = Ok (S754_finite false 7566047373982434 (-55)).
Proof. reflexivity. Qed.

(** An image count beyond the range of doubles cannot be priced. *)
Example calculate_cost_overflow :
  calculate_cost (2 ^ 1024) "Turbo" true = Raise OverflowError.
Proof. vm_compute. reflexivity. Qed.

End CalculateCost.

(** ** [validate_api_key] *)

Section ValidateApiKey.

(** [check_quota] returns on every answer of the network: a parsed body,
    or [None]. *)
Lemma check_quota_returns (self : IdeogramAPIClient) :
  exists quota, check_quota self = Ok quota.
Proof.
  unfold check_quota.
  destruct (session_get self _) as [r | e]; cbn; [| eauto].
  destruct (status_code r =? 200); cbn; [| eauto].
  destruct (json_body r); cbn; eauto.
Qed.

(** The quota is data exactly on status 200 with a body that parses. *)
Lemma check_quota_data (self : IdeogramAPIClient) (quota : json) :
  check_quota self = Ok quota ->
  quota <> JNull ->
  exists r, session_get self (base_url self ++ "/v1/account/quota")%string = Ok r
            /\ status_code r = 200 /\ json_body r = Ok quota.
Proof.
  unfold check_quota.
  destruct (session_get self _) as [r | e]; cbn; [| congruence].
  destruct (status_code r =? 200) eqn:Hs; cbn; [| congruence].
  destruct (json_body r) eqn:Hj; cbn; [| congruence].
  intros [= ->] _. exists r. repeat split; [lia | assumption].
Qed.

(** C2. [validate_api_key] fails open.  It returns on every behaviour
    of the network and never raises; when [check_quota] yields data (a
    value that passes [if quota:]) the key is reported valid; otherwise
    the answer to [GET /v1/models] decides: valid on 200, invalid with
    the message [Invalid API key] on 401, valid with a disclaimer on
    every other status and on every exception.  A failure is reported
    only on status 401. *)
Theorem validate_api_key_fail_open (self : IdeogramAPIClient) :
  (exists ok msg, validate_api_key self = Ok (ok, msg))
  /\ (forall quota,
         check_quota self = Ok quota -> truthy quota = true ->
         validate_api_key self = Ok (true, "API key is valid"%string))
  /\ (forall quota,
         check_quota self = Ok quota -> truthy quota = false ->
         validate_api_key self =
         match session_get self (models_url self) with
         | Ok r =>
             if status_code r =? 200 then Ok (true, "API key is valid"%string)
             else if status_code r =? 401 then Ok (false, "Invalid API key"%string)
             else Ok (true, "API key validation inconclusive"%string)
         | Raise _ => Ok (true, "Could not validate API key (will try anyway)"%string)
         end)
  /\ (forall msg,
         validate_api_key self = Ok (false, msg) ->
         msg = "Invalid API key"%string
         /\ exists r, session_get self (models_url self) = Ok r
                      /\ status_code r = 401).
Proof.
  destruct (check_quota_returns self) as [q Hq].
  unfold validate_api_key, models_url. rewrite Hq. cbn.
  destruct (truthy q) eqn:Ht; cbn.
  - split; [eauto |]. split; [reflexivity |].
    split; [intros q' [= <-]; congruence | intros msg [=]].
  - destruct (session_get self _) as [r | e] eqn:Hg; cbn.
    + destruct (status_code r =? 200) eqn:H200; cbn;
        [| destruct (status_code r =? 401) eqn:H401; cbn].
      * split; [eauto |]. split; [intros q' [= <-]; congruence |].
        split; [reflexivity | intros msg [=]].
      * split; [eauto |]. split; [intros q' [= <-]; congruence |].
        split; [reflexivity |].
        intros msg [= <-]. split; [reflexivity |].
        exists r. split; [reflexivity | lia].
      * split; [eauto |]. split; [intros q' [= <-]; congruence |].
        split; [reflexivity | intros msg [=]].
    + split; [eauto |]. split; [intros q' [= <-]; congruence |].
      split; [reflexivity | intros msg [=]].
Qed.

Lemma validate_api_key_fail_open_witness :
  validate_api_key (init "secret" refusing_service)
  = Ok (false, "Invalid API key"%string).
Proof.
  apply (proj1 (proj2 (proj2
           (validate_api_key_fail_open (init "secret" refusing_service))))
           JNull); reflexivity.
Defined.

(** A body that parses but is empty is no data: the probe of
    [/v1/models] then decides. *)
Example validate_api_key_empty_quota :
  validate_api_key
    (init "secret"
       (fun url =>
          if String.eqb url "https://api.ideogram.ai/v1/models"
          then Ok {| status_code := 401; text := ""; json_body := Ok (JObj []) |}
          else Ok {| status_code := 200; text := ""; json_body := Ok (JObj []) |}))
  = Ok (false, "Invalid API key"%string).
Proof. reflexivity. Qed.

End ValidateApiKey.

(** ** [parse_api_error] *)

Section ParseApiError.

(** [str_prefix n s] is the slice [s[:n]]. *)
Lemma str_prefix_substring (n : nat) (s : string) :
  str_prefix n s = String.substring 0 n s.
Proof.
  revert s. induction n as [| n IH]; intros [| c s]; cbn; try reflexivity.
  now rewrite IH.
Qed.

Lemma str_prefix_length (n : nat) (s : string) :
  String.length (str_prefix n s) = Nat.min n (String.length s).
Proof.
  revert s. induction n as [| n IH]; intros [| c s]; cbn; try reflexivity.
  now rewrite IH.
Qed.

(** C3 as documented fails on an [error] object that has no [message]:
    the code returns the text of that object, as [str] prints it, not
    the serialization of the whole body. *)
Lemma parse_api_error_error_object_cex :
  parse_api_error (reply 400 error_without_message)
  = Ok (JStr "{'code': 1}")
  /\ parse_api_error (reply 400 error_without_message)
     <> Ok (documented_parse_api_error (reply 400 error_without_message)).
Proof. split; [reflexivity | vm_compute; discriminate]. Qed.

(** C3, amended.  On a body that parses to a JSON object the result is
    the value of the top-level [message] when there is one; else, when
    there is an [error], the [message] of that object when it is one
    and has one, and otherwise the text [str(error)], which for a string
    is the string itself; else the serialization of the whole body.  On
    a body that does not parse it is the first 500 characters of the
    raw text, or [HTTP <status>] when the text is empty.  The four
    documented examples follow. *)
Theorem parse_api_error_by_cases :
  (forall status txt kvs,
      parse_api_error {| status_code := status; text := txt;
                         json_body := Ok (JObj kvs) |}
      = Ok match lookup_key "message" kvs with
           | Some m => m
           | None =>
               match lookup_key "error" kvs with
               | Some error => error_text error
               | None => JStr (json_dumps (JObj kvs))
               end
           end)
  /\ (forall status txt e,
         parse_api_error {| status_code := status; text := txt;
                            json_body := Raise e |}
         = Ok (JStr (if String.eqb txt "" then ("HTTP " ++ str_of_int status)%string
                     else String.substring 0 500 txt)))
  /\ (forall s, error_text (JStr s) = JStr s)
  /\ (forall kvs m, lookup_key "message" kvs = Some m -> error_text (JObj kvs) = m)
  /\ parse_api_error (reply 400 (JObj [("message"%string, JStr "bad")]))
     = Ok (JStr "bad")
  /\ parse_api_error
       (reply 400 (JObj [("error"%string, JObj [("message"%string, JStr "x")])]))
     = Ok (JStr "x")
  /\ parse_api_error (reply 400 (JObj [("error"%string, JStr "y")]))
     = Ok (JStr "y")
  /\ parse_api_error {| status_code := 500; text := "";
                        json_body := Raise JSONDecodeError |}
     = Ok (JStr "HTTP 500").
Proof.
  split; [| split; [| split; [| split; [| repeat split]]]].
  - intros status txt kvs. unfold parse_api_error, error_text. cbn.
    destruct (lookup_key "message" kvs) as [m |]; cbn; [reflexivity |].
    destruct (lookup_key "error" kvs) as [err |]; cbn; [| reflexivity].
    destruct err; reflexivity.
  - intros status txt e. unfold parse_api_error.
    rewrite str_prefix_substring.
    cbn [json_body text status_code try_except Py.bind].
    now destruct (String.eqb txt "").
  - reflexivity.
  - intros kvs m Hm. cbn. now rewrite Hm.
Qed.

Lemma parse_api_error_by_cases_witness :
  error_text (JObj [("message"%string, JStr "x")]) = JStr "x".
Proof.
  apply (proj1 (proj2 (proj2 (proj2 parse_api_error_by_cases)))).
  reflexivity.
Defined.

(** Bodies that parse to something other than an object are outside the
    statement above.  On a number, a boolean or [null] the test
    ['message' in error_data] raises [TypeError], which the bare
    [except] turns into the fallback for bodies that do not parse. *)
Lemma parse_api_error_scalar_body (status : Z) (txt : string) (body : json) :
  match body with
  | JNull | JBool _ | JInt _ | JFloat _ => True
  | _ => False
  end ->
  parse_api_error {| status_code := status; text := txt; json_body := Ok body |}
  = Ok (fallback_text
          {| status_code := status; text := txt; json_body := Ok body |}).
Proof.
  unfold parse_api_error, fallback_text.
  cbn [json_body text status_code].
  destruct body; try easy; intros _; cbn [contains try_except Py.bind];
    now destruct (String.eqb txt "").
Qed.

End ParseApiError.

(* ===================================================================== *)
(** * Properties of utils/image_utils.py                                *)
(* ===================================================================== *)

(** ** [ensure_rgb] *)

Section EnsureRgb.

(** An RGBA image: the heap gains the white image, pasted on, and the
    bands of the two calls to [split].  The alpha band is always there:
    the mask given to [paste] is never [None]. *)
Lemma ensure_rgb_rgba (image : ref) (im : PIL.image) (h : heap) :
  h !! image = Some im ->
  0 <= width im -> 0 <= height im ->
  mode im = "RGBA"%string ->
  ensure_rgb image h
  = (Ok (length h),
     h ++ composited im
       :: map (band_image im) (seq 0 4) ++ map (band_image im) (seq 0 4)).
Proof.
  intros Him Hw Hh Hmode. unfold ensure_rgb.
  rewrite (bindM_ok _ _ _ _ _ (read_ok _ _ _ Him)).
  rewrite Hmode.
  change (negb (String.eqb "RGBA" "RGB")) with true.
  change (String.eqb "RGBA" "RGBA") with true. cbv iota.
  unfold Image_new, size. cbn [fst snd].
  replace (width im <? 0) with false by lia.
  replace (height im <? 0) with false by lia. cbn [orb].
  erewrite bindM_ok by reflexivity.
  erewrite bindM_ok by (apply Image_split_spec, Him).
  rewrite Hmode. change (bands_of_mode "RGBA") with 4%nat.
  rewrite length_map, length_seq. change (4 =? 4)%nat with true. cbv iota.
  rewrite <- app_assoc. cbn [map seq app].
  erewrite bindM_ok.
  2:{ erewrite bindM_ok by (apply Image_split_spec, Him).
      rewrite Hmode. change (bands_of_mode "RGBA") with 4%nat.
      cbn [map seq list_item]. rewrite <- app_assoc. cbn [app].
      reflexivity. }
  rewrite length_app. cbn [length].
  replace (length h + 5 + 3)%nat with (length h + 8)%nat by lia.
  erewrite bindM_ok.
  2:{ unfold Image_paste.
      erewrite bindM_ok by apply read_fresh.
      erewrite bindM_ok by (apply read_app, Him).
      erewrite bindM_ok by (apply read_new; reflexivity).
      cbn [width height mode data band_image].
      rewrite !Z.eqb_refl. cbn [andb].
      apply write_fresh. }
  reflexivity.
Qed.

(** Any other mode: one new image, Pillow's conversion of the input. *)
Lemma ensure_rgb_other (image : ref) (im : PIL.image) (h : heap) :
  h !! image = Some im ->
  mode im <> "RGB"%string -> mode im <> "RGBA"%string ->
  ensure_rgb image h = (Ok (length h), h ++ [converted im]).
Proof.
  intros Him Hrgb Hrgba. unfold ensure_rgb.
  rewrite (bindM_ok _ _ _ _ _ (read_ok _ _ _ Him)).
  apply String.eqb_neq in Hrgb, Hrgba. rewrite Hrgb, Hrgba. cbn [negb].
  unfold Image_convert.
  rewrite (bindM_ok _ _ _ _ _ (read_ok _ _ _ Him)).
  reflexivity.
Qed.

(** An RGB image: the reference given, and nothing done. *)
Lemma ensure_rgb_rgb (image : ref) (im : PIL.image) (h : heap) :
  h !! image = Some im ->
  mode im = "RGB"%string ->
  ensure_rgb image h = (Ok image, h).
Proof.
  intros Him Hmode. unfold ensure_rgb.
  rewrite (bindM_ok _ _ _ _ _ (read_ok _ _ _ Him)).
  now rewrite Hmode.
Qed.

(** C8. On an image already in mode RGB the very object is returned
    and nothing is touched.  On an RGBA image the result is a new
    object: an RGB image (three bands, no alpha) of the same size, white
    with the input pasted through the input's alpha band.  On any other
    mode it is a new object holding Pillow's conversion to RGB.  In
    every case each object that existed before the call, the input among
    them, is left as it was. *)
Theorem ensure_rgb_spec (image : ref) (im : PIL.image) (h : heap) :
  h !! image = Some im ->
  0 <= width im -> 0 <= height im ->
  exists out h' res,
    ensure_rgb image h = (Ok out, h')
    /\ h' !! out = Some res
    /\ mode res = "RGB"%string
    /\ bands_of_mode (mode res) = 3%nat
    /\ size res = size im
    /\ (forall r im', h !! r = Some im' -> h' !! r = Some im')
    /\ (mode im = "RGB"%string -> out = image /\ h' = h)
    /\ (mode im = "RGBA"%string -> out <> image /\ res = composited im)
    /\ (mode im <> "RGB"%string -> mode im <> "RGBA"%string ->
        out <> image /\ res = converted im).
Proof.
  intros Him Hw Hh.
  assert (Hlt : (image < length h)%nat) by (eapply lookup_lt_Some, Him).
  destruct (String.eqb_spec (mode im) "RGB") as [Hrgb | Hrgb];
    [| destruct (String.eqb_spec (mode im) "RGBA") as [Hrgba | Hrgba]].
  - exists image, h, im. rewrite (ensure_rgb_rgb _ _ _ Him Hrgb).
    repeat split; auto; try congruence. now rewrite Hrgb.
  - eexists _, _, (composited im).
    rewrite (ensure_rgb_rgba _ _ _ Him Hw Hh Hrgba).
    split; [reflexivity |].
    split; [rewrite lookup_app_r, Nat.sub_diag by lia; reflexivity |].
    repeat split; auto; try congruence; try lia.
    intros r im' Hr. now apply lookup_app_l_Some.
  - eexists _, _, (converted im).
    rewrite (ensure_rgb_other _ _ _ Him Hrgb Hrgba).
    split; [reflexivity |].
    split; [rewrite lookup_app_r, Nat.sub_diag by lia; reflexivity |].
    repeat split; auto; try congruence; try lia.
    intros r im' Hr. now apply lookup_app_l_Some.
Qed.

Lemma ensure_rgb_spec_witness :
  exists out h' res,
    ensure_rgb 0%nat [photo] = (Ok out, h')
    /\ h' !! out = Some res
    /\ mode res = "RGB"%string
    /\ bands_of_mode (mode res) = 3%nat
    /\ size res = size photo
    /\ (forall r im', [photo] !! r = Some im' -> h' !! r = Some im')
    /\ (mode photo = "RGB"%string -> out = 0%nat /\ h' = [photo])
    /\ (mode photo = "RGBA"%string -> out <> 0%nat /\ res = composited photo)
    /\ (mode photo <> "RGB"%string -> mode photo <> "RGBA"%string ->
        out <> 0%nat /\ res = converted photo).
Proof.
  apply (ensure_rgb_spec 0%nat photo [photo]);
    [reflexivity | cbn; lia | cbn; lia].
Defined.

End EnsureRgb.

(** ** [resize_to_limit] *)

Section ResizeToLimit.

Lemma binary_round_aux_not_negative (m e : Z) (l : location) :
  not_negative (binary_round_aux prec emax false m e l).
Proof.
  unfold binary_round_aux.
  destruct (shr_fexp prec emax m e l) as [mrs' e'].
  destruct (shr_fexp prec emax _ e' loc_Exact) as [mrs'' e''].
  destruct (shr_m mrs''); cbn; auto.
  destruct (_ <=? _); cbn; auto.
Qed.

Lemma fsqrt_not_negative (x : float) : not_negative (fsqrt x).
Proof.
  destruct x as [s | [] | | [] m e]; cbn; auto.
  destruct (SFsqrt_core_binary _ _ _ _) as [[mz ez] lz].
  apply binary_round_aux_not_negative.
Qed.

Lemma fmul_not_negative (x y : float) :
  not_negative x -> not_negative y -> not_negative (fmul x y).
Proof.
  destruct x as [sx | [] | | [] mx ex]; destruct y as [sy | [] | | [] my ey];
    cbn; try easy.
  intros _ _. apply binary_round_aux_not_negative.
Qed.

Lemma float_of_int_not_negative (n : Z) (x : float) :
  0 <= n -> float_of_int n = Ok x -> not_negative x.
Proof.
  intros Hn. unfold float_of_int.
  destruct n as [| p | p]; [| | lia].
  - cbn. now intros [= <-].
  - cbn [binary_normalize]. unfold binary_round.
    destruct (shl_align _ _ _) as [mz ez].
    pose proof (binary_round_aux_not_negative (Zpos mz) ez loc_Exact) as H.
    destruct (binary_round_aux _ _ _ _ _ _); intros [= <-]; exact H.
Qed.

(** On such a double [int] is [math.floor]. *)
Lemma int_of_float_floor (x : float) (n : Z) :
  not_negative x -> int_of_float x = Ok n -> floor_of_float x = Some n.
Proof.
  destruct x as [s | s | | [] m e]; cbn; try easy.
  - now intros _ [= <-].
  - intros _ [= <-]. destruct e; reflexivity.
Qed.

Lemma lift_ok {A} (r : result A) (a : A) (h : heap) :
  r = Ok a -> lift r h = (Ok a, h).
Proof. now intros ->. Qed.

Lemma resize_to_limit_within (png : encoder) (image : ref) (im : PIL.image)
      (h : heap) (max_size_mb current_size_mb : float) (nbytes : Z) :
  h !! image = Some im ->
  png im = Ok nbytes ->
  int_true_div nbytes (1024 * 1024) = Ok current_size_mb ->
  flt max_size_mb current_size_mb = false ->
  resize_to_limit png image max_size_mb h = (Ok image, h).
Proof.
  intros Him Hpng Hmb Hle. unfold resize_to_limit, Image_save_tell.
  erewrite bindM_ok.
  2:{ erewrite bindM_ok by (apply read_ok, Him). apply lift_ok, Hpng. }
  erewrite bindM_ok by (apply lift_ok, Hmb).
  now rewrite Hle.
Qed.

(** Above the limit the function does one thing: it computes the two
    sides, and either fails where that computation fails or adds one
    resized image to the heap.  The encoder is not asked again. *)
Lemma resize_to_limit_over_eq (png : encoder) (image : ref) (im : PIL.image)
      (h : heap) (max_size_mb current_size_mb : float) (nbytes : Z) :
  h !! image = Some im ->
  png im = Ok nbytes ->
  int_true_div nbytes (1024 * 1024) = Ok current_size_mb ->
  flt max_size_mb current_size_mb = true ->
  resize_to_limit png image max_size_mb h
  = match scaled_sides im max_size_mb current_size_mb with
    | Ok (new_width, new_height) =>
        (Ok (length h),
         h ++ [resized im (Z.max new_width 256) (Z.max new_height 256)])
    | Raise e => (Raise e, h)
    end.
Proof.
  intros Him Hpng Hmb Hgt. unfold resize_to_limit, Image_save_tell.
  erewrite bindM_ok.
  2:{ erewrite bindM_ok by (apply read_ok, Him). apply lift_ok, Hpng. }
  erewrite bindM_ok by (apply lift_ok, Hmb).
  rewrite Hgt.
  unfold scaled_sides, scale_factor, Image_resize, bindM, lift, read, Py.bind.
  rewrite Him.
  destruct (float_div max_size_mb current_size_mb); [| reflexivity].
  destruct (float_of_int (width im)); [| reflexivity].
  destruct (int_of_float _) as [new_width |]; [| reflexivity].
  destruct (float_of_int (height im)); [| reflexivity].
  destruct (int_of_float _) as [new_height |]; [| reflexivity].
  cbn [fst snd]. rewrite Him.
  replace (Z.max new_width 256 <=? 0) with false by lia.
  replace (Z.max new_height 256 <=? 0) with false by lia.
  reflexivity.
Qed.

Lemma resize_to_limit_over (png : encoder) (image : ref) (im : PIL.image)
      (h : heap) (max_size_mb current_size_mb factor w h' : float)
      (nbytes new_width new_height : Z) :
  h !! image = Some im ->
  png im = Ok nbytes ->
  int_true_div nbytes (1024 * 1024) = Ok current_size_mb ->
  flt max_size_mb current_size_mb = true ->
  scale_factor max_size_mb current_size_mb = Ok factor ->
  float_of_int (width im) = Ok w ->
  int_of_float (fmul w factor) = Ok new_width ->
  float_of_int (height im) = Ok h' ->
  int_of_float (fmul h' factor) = Ok new_height ->
  resize_to_limit png image max_size_mb h
  = (Ok (length h),
     h ++ [resized im (Z.max new_width 256) (Z.max new_height 256)]).
Proof.
  intros Him Hpng Hmb Hgt Hf Hw Hnw Hh Hnh.
  rewrite (resize_to_limit_over_eq png image im h _ _ _ Him Hpng Hmb Hgt).
  unfold scaled_sides. rewrite Hf. cbn [Py.bind]. rewrite Hw. cbn [Py.bind].
  rewrite Hnw. cbn [Py.bind]. rewrite Hh. cbn [Py.bind]. now rewrite Hnh.
Qed.

(** Above the limit, with a limit that is a double and is not negative,
    and sides of up to 62 bits, the two new sides are computed: no step
    of the computation raises. *)
Lemma scaled_sides_returns (im : image) (max_size_mb current_size_mb : float)
      (K : Z) :
  valid_binary prec emax max_size_mb = true ->
  not_negative max_size_mb ->
  below_pow2 K current_size_mb ->
  flt max_size_mb current_size_mb = true ->
  0 <= width im < 2 ^ 62 -> 0 <= height im < 2 ^ 62 ->
  exists new_width new_height,
    scaled_sides im max_size_mb current_size_mb = Ok (new_width, new_height).
Proof.
  intros Hvalid Hnn Hcur Hgt Hw Hh.
  assert (Hq : exists q, float_div max_size_mb current_size_mb = Ok q
                         /\ below_pow2 54 q /\ not_negative q).
  { destruct current_size_mb as [sc | | | sc mc ec]; cbn in Hcur; try easy.
    - destruct max_size_mb as [sm | [] | | [] mm em]; cbn in Hnn, Hgt;
        easy.
    - exists (SFdiv prec emax max_size_mb (S754_finite sc mc ec)).
      split; [reflexivity |].
      destruct max_size_mb as [sm | [] | | [] mm em]; cbn in Hnn; try easy.
      destruct sc; [discriminate Hgt |].
      pose proof (valid_binary_digits _ _ _ Hvalid) as Hd.
      pose proof (digits2_pos_pos mc).
      assert (Hord : em < ec \/ (em = ec /\ (mm < mc)%positive)).
      { unfold flt, SFltb in Hgt. cbn in Hgt.
        change (Pos.compare_cont Eq mm mc) with (Pos.compare mm mc) in Hgt.
        destruct (Z.compare_spec em ec); [| lia | discriminate].
        destruct (Pos.compare_spec mm mc); try discriminate. lia. }
      split.
      + apply (SFdiv_finite_below false false mm mc em ec 53); lia.
      + cbn [SFdiv xorb].
        destruct (SFdiv_core_binary _ _ _ _ _ _) as [[mz ez] lz].
        apply binary_round_aux_not_negative. }
  destruct Hq as (q & Hdiv & Hqb & Hqn).
  pose proof (fsqrt_below q 54 Hqb Hqn ltac:(lia)) as Hs.
  change (Z.max ((54 + 1) / 2) (-1074) + 1) with 28 in Hs.
  assert (H09 : below_pow2 0 (decimal 9 1)) by (vm_compute; split; discriminate).
  pose proof (fmul_below _ _ 28 0 Hs H09 ltac:(lia)) as Hf.
  change (Z.max (28 + 0) (-1074) + 1) with 29 in Hf.
  assert (Hside : forall n, 0 <= n < 2 ^ 62 ->
            exists x k, float_of_int n = Ok x
                        /\ int_of_float (fmul x (fmul (fsqrt q) (decimal 9 1)))
                           = Ok k).
  { intros n Hn.
    assert (Hdn : Zdigits2 n <= 62) by (apply Zdigits2_le; lia).
    destruct (float_of_int_below n 62 Hdn ltac:(lia)) as (x & Hx & Hxb).
    pose proof (fmul_below _ _ 63 29 Hxb Hf ltac:(lia)) as Hp.
    destruct (int_of_float_below _ _ Hp) as (k & Hk). eauto. }
  destruct (Hside (width im) Hw) as (w & nw & Hfw & Hnw).
  destruct (Hside (height im) Hh) as (h & nh & Hfh & Hnh).
  exists nw, nh. unfold scaled_sides, scale_factor.
  rewrite Hdiv. cbn [Py.bind]. rewrite Hfw. cbn [Py.bind]. rewrite Hnw.
  cbn [Py.bind]. rewrite Hfh. cbn [Py.bind]. rewrite Hnh. reflexivity.
Qed.

(** C6. Let [current_size_mb] be the size of the PNG encoding of the
    image, in MB.  When it does not exceed [max_size_mb] the very image
    is returned and the heap is left as it was.  Otherwise, with
    [factor = sqrt(max_size_mb / current_size_mb) * 0.9], the width and
    the height are each multiplied by [factor] and floored, each result
    is raised to 256 if it is below, and one new image of that size is
    made by one call to [resize]; its encoded size is not looked at.
    Whatever is returned after a resize is at least 256 on either side.
    The call returns for every limit that is a double and is not
    negative, on every image with sides of up to 62 bits. *)
Theorem resize_to_limit_spec (png : encoder) (image : ref) (im : PIL.image)
        (h : heap) (max_size_mb current_size_mb : float) (nbytes : Z) :
  h !! image = Some im ->
  png im = Ok nbytes ->
  int_true_div nbytes (1024 * 1024) = Ok current_size_mb ->
  (flt max_size_mb current_size_mb = false ->
   resize_to_limit png image max_size_mb h = (Ok image, h))
  /\ (flt max_size_mb current_size_mb = true ->
      forall factor w h' new_width new_height,
        scale_factor max_size_mb current_size_mb = Ok factor ->
        float_of_int (width im) = Ok w ->
        int_of_float (fmul w factor) = Ok new_width ->
        float_of_int (height im) = Ok h' ->
        int_of_float (fmul h' factor) = Ok new_height ->
        resize_to_limit png image max_size_mb h
        = (Ok (length h),
           h ++ [resized im (Z.max new_width 256) (Z.max new_height 256)])
        /\ (0 <= width im -> floor_of_float (fmul w factor) = Some new_width)
        /\ (0 <= height im -> floor_of_float (fmul h' factor) = Some new_height))
  /\ (forall out h1,
         resize_to_limit png image max_size_mb h = (Ok out, h1) ->
         (flt max_size_mb current_size_mb = false /\ out = image /\ h1 = h)
         \/ (flt max_size_mb current_size_mb = true
             /\ exists res,
                 out = length h /\ h1 = h ++ [res]
                 /\ data res = Resize (data im) (width res) (height res) LANCZOS
                 /\ 256 <= width res /\ 256 <= height res))
  /\ (valid_binary prec emax max_size_mb = true ->
      not_negative max_size_mb ->
      0 <= nbytes < 2 ^ 1000 ->
      0 <= width im < 2 ^ 62 -> 0 <= height im < 2 ^ 62 ->
      exists out h1, resize_to_limit png image max_size_mb h = (Ok out, h1)).
Proof.
  intros Him Hpng Hmb. split; [| split; [| split]].
  - intros Hle.
    now apply resize_to_limit_within
      with (im := im) (current_size_mb := current_size_mb) (nbytes := nbytes).
  - intros Hgt factor w h' nw nh Hf Hw Hnw Hh Hnh. split; [| split].
    + now apply resize_to_limit_over
        with (nbytes := nbytes) (current_size_mb := current_size_mb)
             (factor := factor) (w := w) (h' := h').
    + intros H0. apply int_of_float_floor; [| exact Hnw].
      apply fmul_not_negative.
      * now apply float_of_int_not_negative with (width im).
      * unfold scale_factor in Hf.
        destruct (float_div _ _); [| discriminate].
        cbn [Py.bind] in Hf. injection Hf as <-.
        apply fmul_not_negative; [apply fsqrt_not_negative |].
        now vm_compute.
    + intros H0. apply int_of_float_floor; [| exact Hnh].
      apply fmul_not_negative.
      * now apply float_of_int_not_negative with (height im).
      * unfold scale_factor in Hf.
        destruct (float_div _ _); [| discriminate].
        cbn [Py.bind] in Hf. injection Hf as <-.
        apply fmul_not_negative; [apply fsqrt_not_negative |].
        now vm_compute.
  - intros out h1 Hrun.
    destruct (flt max_size_mb current_size_mb) eqn:Hcmp.
    + right. split; [reflexivity |].
      rewrite (resize_to_limit_over_eq png image im h _ _ _ Him Hpng Hmb Hcmp)
        in Hrun.
      destruct (scaled_sides im max_size_mb current_size_mb) as [[nw nh] | e];
        [| discriminate].
      injection Hrun as <- <-. eexists. repeat split; cbn; lia.
    + left. split; [reflexivity |].
      rewrite (resize_to_limit_within png image im h _ _ _ Him Hpng Hmb Hcmp)
        in Hrun.
      now injection Hrun as <- <-.
  - intros Hvalid Hnn Hn Hw Hh.
    destruct (flt max_size_mb current_size_mb) eqn:Hcmp.
    + rewrite (resize_to_limit_over_eq png image im h _ _ _ Him Hpng Hmb Hcmp).
      assert (Hcur : below_pow2 1001 current_size_mb).
      { assert (Hd : Zdigits2 nbytes <= 1000) by (apply Zdigits2_le; lia).
        assert (Hmb' : Zdigits2 (1024 * 1024) = 21) by reflexivity.
        destruct (int_true_div_below nbytes (1024 * 1024) 1000) as [E Hb];
          [lia | lia | lia |].
        rewrite E in Hmb. now injection Hmb as <-. }
      destruct (scaled_sides_returns im max_size_mb current_size_mb 1001
                  Hvalid Hnn Hcur Hcmp Hw Hh) as (nw & nh & ->).
      eauto.
    + rewrite (resize_to_limit_within png image im h _ _ _ Him Hpng Hmb Hcmp).
      eauto.
Qed.

Lemma resize_to_limit_spec_witness :
  resize_to_limit twenty_mb 0%nat (decimal 10 0) [photo]
  = (Ok 1%nat, [photo; resized photo 636 509]).
Proof.
  assert (H : int_true_div (20 * 1024 * 1024) (1024 * 1024) = Ok (decimal 20 0))
    by (vm_compute; reflexivity).
  pose proof (resize_to_limit_spec twenty_mb 0%nat photo [photo]
                (decimal 10 0) (decimal 20 0) (20 * 1024 * 1024)
                eq_refl eq_refl H) as (_ & Hover & _).
  refine (proj1 (Hover _ (S754_finite false 5732146505273196 (-53))
                       (decimal 1000 0) (decimal 800 0) 636 509 _ _ _ _ _));
    vm_compute; reflexivity.
Defined.

(** One pass only: with an encoder for which the resized image still
    takes 20 MB, above the limit, that image is returned as it is. *)
Example resize_to_limit_no_second_pass :
  resize_to_limit twenty_mb 0%nat (decimal 10 0) [photo]
  = (Ok 1%nat, [photo; resized photo 636 509])
  /\ twenty_mb (resized photo 636 509) = Ok (20 * 1024 * 1024)
  /\ flt (decimal 10 0) (quotient (20 * 1024 * 1024) (1024 * 1024)) = true.
Proof. repeat split; vm_compute; reflexivity. Qed.

(** The documented example: an image estimated at 20 MB with
    [max_size_mb = 10].  The factor is the double
    0.6363961030678928, between 0.636 and 0.637, and an image of
    1000 x 800 becomes one of 636 x 509. *)
Example scale_factor_20_10 :
  scale_factor (decimal 10 0) (decimal 20 0)
  = Ok (S754_finite false 5732146505273196 (-53))
  /\ flt (decimal 636 3) (S754_finite false 5732146505273196 (-53)) = true
  /\ flt (S754_finite false 5732146505273196 (-53)) (decimal 637 3) = true.
Proof. repeat split; vm_compute; reflexivity. Qed.

End ResizeToLimit.

(** ** [calculate_aspect_ratio] *)

Section CalculateAspectRatio.

Lemma aspect_ratios_finite (x : string * float) :
  In x aspect_ratios -> exists s m e, snd x = S754_finite s m e.
Proof.
  intros H. vm_compute in H.
  repeat (destruct H as [<- | H]; [cbn; eauto |]). destruct H.
Qed.

Lemma distance_not_nan (ratio : float) (x : string * float) :
  ratio <> S754_nan -> In x aspect_ratios -> distance ratio x <> S754_nan.
Proof.
  intros Hr Hx. destruct (aspect_ratios_finite x Hx) as (s & m & e & E).
  unfold distance. rewrite E.
  now apply fabs_not_nan, fsub_finite_not_nan.
Qed.

(** Wherever the quotient is a double, the label returned is that of the
    first minimum of the table. *)
Lemma calculate_aspect_ratio_first_minimum (width height : Z) (ratio : float) :
  int_true_div width height = Ok ratio ->
  exists closest,
    calculate_aspect_ratio width height = Ok (fst closest)
    /\ first_minimum flt (distance ratio) aspect_ratios closest.
Proof.
  intros Hdiv.
  unfold calculate_aspect_ratio. rewrite Hdiv. cbn [Py.bind].
  destruct (min_by_first_minimum flt (distance ratio)
              (fun k => k <> S754_nan) flt_irrefl flt_trans flt_below
              aspect_ratios) as (m & Hm & Hmin).
  - discriminate.
  - intros y Hy. apply distance_not_nan; [| exact Hy].
    exact (int_true_div_not_nan _ _ _ Hdiv).
  - exists m. rewrite Hm. split; [reflexivity | exact Hmin].
Qed.

(** C5 as documented fails on a quotient beyond the range of doubles:
    the division raises and no label is returned. *)
Lemma calculate_aspect_ratio_overflow_cex :
  0 < 1 /\ calculate_aspect_ratio (2 ^ 1024) 1 = Raise OverflowError.
Proof. split; [lia | vm_compute; reflexivity]. Qed.

(** C5, amended.  The table has the fifteen documented labels, in the
    documented order.  For every width and positive height whose
    quotient [width / height] is a double [ratio] (the division raises
    [OverflowError] beyond the range of doubles), the label returned is
    that of the first minimum of the table for the key
    [abs(value - ratio)]: no entry is closer to the ratio, and every
    entry before it in the table is strictly farther.  1920 x 1080 is
    16:9 and 100 x 100 is 1:1. *)
Theorem calculate_aspect_ratio_closest :
  map fst aspect_ratios
  = ["1:1"; "4:3"; "3:4"; "16:9"; "9:16"; "3:2"; "2:3"; "5:4"; "4:5";
     "16:10"; "10:16"; "3:1"; "1:3"; "2:1"; "1:2"]%string
  /\ calculate_aspect_ratio 1920 1080 = Ok "16:9"%string
  /\ calculate_aspect_ratio 100 100 = Ok "1:1"%string
  /\ (forall width height ratio,
         0 < height ->
         int_true_div width height = Ok ratio ->
         exists closest,
           calculate_aspect_ratio width height = Ok (fst closest)
           /\ first_minimum flt (distance ratio) aspect_ratios closest).
Proof.
  split; [reflexivity |].
  split; [vm_compute; reflexivity |].
  split; [vm_compute; reflexivity |].
  intros width height ratio _ Hdiv.
  now apply calculate_aspect_ratio_first_minimum.
Qed.

Lemma calculate_aspect_ratio_closest_witness :
  exists closest,
    calculate_aspect_ratio 1920 1080 = Ok (fst closest)
    /\ first_minimum flt (distance (quotient 1920 1080)) aspect_ratios closest.
Proof.
  apply (proj2 (proj2 (proj2 calculate_aspect_ratio_closest))).
  - lia.
  - vm_compute. reflexivity.
Defined.

(** The quotient is a double, and a label is returned, for every width
    below [2^1022] times the height in absolute value. *)
Lemma calculate_aspect_ratio_returns (width height : Z) :
  0 < height -> Z.abs width < 2 ^ 1022 * height ->
  exists ratio label,
    int_true_div width height = Ok ratio
    /\ calculate_aspect_ratio width height = Ok label.
Proof.
  intros Hh Hw.
  assert (Hd : Zdigits2 width - Zdigits2 height + 1 <= 1023).
  { replace (Zdigits2 width) with (Zdigits2 (Z.abs width))
      by (now destruct width).
    pose proof (Zdigits2_nonneg height) as Hn.
    pose proof (Zdigits2_gt height ltac:(lia)) as Hlt.
    assert (Zdigits2 (Z.abs width) <= 1022 + Zdigits2 height); [| lia].
    apply Zdigits2_le; [lia | lia |].
    rewrite Z.pow_add_r by lia. nia. }
  destruct (int_true_div_below width height 1023 ltac:(lia) Hd ltac:(lia))
    as [Hdiv _].
  destruct (calculate_aspect_ratio_first_minimum width height _ Hdiv)
    as (closest & Hrun & _).
  eauto.
Qed.

(** Ties go to the entry met first: 9/8 is at the same distance, 0.125,
    from 1:1 and from 5:4, and 1:1, which comes first in the table, is
    returned. *)
Example calculate_aspect_ratio_tie :
  distance (quotient 9 8) ("1:1"%string, decimal 1 0)
  = distance (quotient 9 8) ("5:4"%string, quotient 5 4)
  /\ calculate_aspect_ratio 9 8 = Ok "1:1"%string.
Proof. split; vm_compute; reflexivity. Qed.

End CalculateAspectRatio.

(** ** [calculate_aspect_ratio] at height 0 *)

Section CalculateAspectRatioPartial.

(** C9. For a height of 0 the function raises [ZeroDivisionError] and
    returns no label: a label is returned only for a height that is not
    0. *)
Theorem calculate_aspect_ratio_zero_height (width : Z) :
  calculate_aspect_ratio width 0 = Raise ZeroDivisionError
  /\ (forall height label,
         calculate_aspect_ratio width height = Ok label -> height <> 0).
Proof.
  split; [reflexivity |].
  intros height label H ->. discriminate H.
Qed.

Lemma calculate_aspect_ratio_zero_height_witness : 1080 <> 0.
Proof.
  apply (proj2 (calculate_aspect_ratio_zero_height 1920) 1080 "16:9"%string).
  vm_compute. reflexivity.
Defined.

End CalculateAspectRatioPartial.

(** ** [validate_image_dimensions] *)

Section ValidateImageDimensions.

(** C4. The dimensions are refused, with a message that names the limit
    broken, exactly when a side is below 256, a side is above 2048, or
    the product is above 4,194,304, and accepted otherwise; the function
    is total.  (100, 100) is refused, (2048, 2048) is accepted, its
    product being the limit itself, and (2049, 2049) is refused. *)
Theorem validate_image_dimensions_spec (width height : Z) :
  (fst (validate_image_dimensions width height) = false
   <-> (width < 256 \/ height < 256)
       \/ (2048 < width \/ 2048 < height)
       \/ 4194304 < width * height)
  /\ (validate_image_dimensions width height = (true, "Valid dimensions"%string)
      \/ validate_image_dimensions width height
         = (false, "Image dimensions too small. Minimum dimension is 256px"%string)
      \/ validate_image_dimensions width height
         = (false, "Image dimensions too large. Maximum dimension is 2048px"%string)
      \/ validate_image_dimensions width height
         = (false, "Image resolution too high. Maximum is 4194304 pixels"%string))
  /\ fst (validate_image_dimensions 100 100) = false
  /\ validate_image_dimensions 2048 2048 = (true, "Valid dimensions"%string)
  /\ 2048 * 2048 = max_pixels
  /\ fst (validate_image_dimensions 2049 2049) = false.
Proof.
  split; [| split; [| repeat split]].
  - unfold validate_image_dimensions, min_dim, max_dim, max_pixels.
    destruct (width <? 256) eqn:H1; cbn [orb].
    { cbn. split; [intros _; lia | reflexivity]. }
    destruct (height <? 256) eqn:H2.
    { cbn. split; [intros _; lia | reflexivity]. }
    destruct (width >? 2048) eqn:H3; cbn [orb].
    { cbn. split; [intros _; lia | reflexivity]. }
    destruct (height >? 2048) eqn:H4.
    { cbn. split; [intros _; lia | reflexivity]. }
    destruct (width * height >? 4194304) eqn:H5.
    { cbn. split; [intros _; lia | reflexivity]. }
    cbn. split; [discriminate | lia].
  - unfold validate_image_dimensions.
    destruct (_ || _); [right; left; reflexivity |].
    destruct (_ || _); [right; right; left; reflexivity |].
    destruct (_ >? _); [right; right; right; reflexivity |].
    left; reflexivity.
Qed.

(** The three tests are made in this order, so that a pair with one
    side too small and the other too large is reported as too small. *)
Example validate_image_dimensions_small_first :
  validate_image_dimensions 100 5000
  = (false, "Image dimensions too small. Minimum dimension is 256px"%string).
Proof. reflexivity. Qed.

End ValidateImageDimensions.

(** ** [create_error_image] *)

Section CreateErrorImage.

Lemma try_exceptM_pass (body : M unit) (h : heap) :
  try_exceptM body (fun _ => ret tt) h = (Ok tt, snd (body h)).
Proof.
  unfold try_exceptM. destruct (body h) as [[[] | e] h']; reflexivity.
Qed.

Lemma read_last (h : heap) (im : image) :
  read (length h) (h ++ [im]) = (Ok im, h ++ [im]).
Proof. apply read_fresh. Qed.

(** The loop draws, in order, a first part of the lines given, all of
    them if it ends well, and touches nothing but the text of the one
    image. *)
Lemma draw_lines_spec (ts : text_support) (f : font) (w : Z)
      (lines : list string) (h : heap) :
  forall (y : Z) (im : image),
  exists (n : nat) (r : result unit) (im' : image),
    draw_lines ts (length h) f w lines y (h ++ [im]) = (r, h ++ [im'])
    /\ mode im' = mode im /\ width im' = width im /\ height im' = height im
    /\ background (data im') = background (data im)
    /\ drawn (data im') = drawn (data im) ++ firstn n (placed ts f w lines y)
    /\ (forall x y' s, In (x, y', s) (firstn n (placed ts f w lines y)) ->
                       measured ts f s)
    /\ (r = Ok tt -> n = length lines).
Proof.
  induction lines as [| line rest IH]; intros y im.
  - exists 0%nat, (Ok tt), im. cbn. rewrite app_nil_r.
    repeat split; auto; easy.
  - cbn [draw_lines placed].
    destruct (textbbox ts f line) as [[[[x0 y0] x1] y1] | e] eqn:Hbox.
    2:{ exists 0%nat, (Raise e), im. cbn. rewrite app_nil_r.
        repeat split; auto; easy. }
    erewrite bindM_ok by reflexivity.
    unfold ImageDraw_text.
    destruct (text_draws ts f line) as [[] | e] eqn:Hdraw.
    2:{ exists 0%nat, (Raise e), im. cbn. rewrite app_nil_r.
        repeat split; auto; easy. }
    erewrite bindM_ok.
    2:{ erewrite bindM_ok by reflexivity.
        erewrite bindM_ok by apply read_last.
        unfold write. rewrite <- (Nat.add_0_r (length h)) at 1.
        rewrite insert_app_r. reflexivity. }
    cbn [insert list_insert].
    match goal with
    | |- context [draw_lines _ _ _ _ _ _ (h ++ [?im1])] =>
        destruct (IH (y + 25) im1)
          as (n & r & im' & Hrun & Hm & Hw & Hh & Hb & Hd & Hbx & Hn)
    end.
    exists (S n), r, im'. rewrite Hrun.
    cbn [mode width height data background drawn] in *.
    repeat split; auto.
    + rewrite Hd. cbn [firstn]. rewrite <- app_assoc. cbn [app].
      unfold x_position. now rewrite Hbox.
    + cbn [firstn In]. intros x y' s [[= <- <- <-] | Hin].
      * unfold measured. rewrite Hbox. eauto.
      * eapply Hbx, Hin.
    + intros Hr. cbn [length]. f_equal. auto.
Qed.

(** For sizes that are not negative the function returns, whatever
    becomes of the text: a new RGB image of the size asked for, red
    under the text, with a first part of the first ten lines on it. *)
Lemma create_error_image_returns (ts : text_support) (message : string)
      (w h : Z) (hp : heap) :
  0 <= w -> 0 <= h ->
  exists (im : image) (n : nat) (f : font),
    create_error_image ts message w h hp = (Ok (length hp), hp ++ [im])
    /\ mode im = "RGB"%string /\ width im = w /\ height im = h
    /\ background (data im) = Fill red
    /\ drawn (data im)
       = firstn n (placed ts f w (firstn 10 (split_lines message))
                          (first_y message h))
    /\ (forall x y s, In (x, y, s) (drawn (data im)) -> measured ts f s).
Proof.
  intros Hw Hh. unfold create_error_image, Image_new. cbn [fst snd].
  replace (w <? 0) with false by lia. replace (h <? 0) with false by lia.
  cbn [orb]. erewrite bindM_ok by reflexivity.
  set (im0 := {| mode := "RGB"; width := w; height := h; data := Fill red |}).
  set (body := bindM (lift (import_ImageDraw_ImageFont ts)) _).
  erewrite bindM_ok by apply try_exceptM_pass.
  assert (Hbody : exists im n f,
             snd (body (hp ++ [im0])) = hp ++ [im]
             /\ mode im = "RGB"%string /\ width im = w /\ height im = h
             /\ background (data im) = Fill red
             /\ drawn (data im)
                = firstn n (placed ts f w (firstn 10 (split_lines message))
                                   (first_y message h))
             /\ (forall x y s, In (x, y, s) (drawn (data im)) ->
                               measured ts f s)).
  { subst body. unfold bindM at 1, lift at 1.
    destruct (import_ImageDraw_ImageFont ts) as [[] | e].
    2:{ exists im0, 0%nat, DefaultFont. cbn. repeat split; auto; easy. }
    unfold bindM at 1, try_exceptM, lift.
    destruct (ImageFont_truetype ts "arial.ttf" 20) as [f | e].
    - destruct (draw_lines_spec ts f w (firstn 10 (split_lines message)) hp
                  (first_y message h) im0)
        as (n & r & im & Hrun & Hm & Hw' & Hh' & Hb & Hd & Hbx & _).
      exists im, n, f. unfold first_y in Hrun. rewrite Hrun. cbn [snd].
      repeat split; auto. cbn in Hd. rewrite Hd. exact Hbx.
    - destruct (ImageFont_load_default ts) as [f | e'].
      + destruct (draw_lines_spec ts f w (firstn 10 (split_lines message)) hp
                    (first_y message h) im0)
          as (n & r & im & Hrun & Hm & Hw' & Hh' & Hb & Hd & Hbx & _).
        exists im, n, f. unfold first_y in Hrun. rewrite Hrun. cbn [snd].
        repeat split; auto. cbn in Hd. rewrite Hd. exact Hbx.
      + exists im0, 0%nat, DefaultFont. cbn. repeat split; auto; easy. }
  destruct Hbody as (im & n & f & Hsnd & Hrest).
  exists im, n, f. subst im0. unfold red in *. rewrite Hsnd.
  split; [reflexivity | exact Hrest].
Qed.

(** A negative size is refused by [Image.new], outside the [try]. *)
Lemma create_error_image_negative (ts : text_support) (message : string)
      (w h : Z) (hp : heap) :
  w < 0 \/ h < 0 ->
  create_error_image ts message w h hp = (Raise ValueError, hp).
Proof.
  intros H. unfold create_error_image, Image_new. cbn [fst snd].
  replace ((w <? 0) || (h <? 0)) with true by lia. reflexivity.
Qed.


Lemma placed_length (ts : text_support) (f : font) (w : Z)
      (lines : list string) (y : Z) :
  length (placed ts f w lines y) = length lines.
Proof.
  revert y. induction lines as [| l rest IH]; intros y; cbn; [reflexivity |].
  now rewrite IH.
Qed.

Lemma placed_In (ts : text_support) (f : font) (w : Z)
      (lines : list string) (y0 : Z) (x y : Z) (s : string) :
  In (x, y, s) (placed ts f w lines y0) ->
  In s lines /\ x = x_position ts f w s
  /\ y0 <= y /\ y + line_pitch <= y0 + line_pitch * Z.of_nat (length lines).
Proof.
  revert y0. induction lines as [| l rest IH]; intros y0; cbn [placed In];
    [easy |].
  intros [[= <- <- <-] | H].
  - unfold line_pitch. cbn [length]. repeat split; auto; lia.
  - apply IH in H as (Hin & Hx & Hy0 & Hy1).
    unfold line_pitch in *. cbn [length]. repeat split; auto; lia.
Qed.

Lemma In_firstn {A} (n : nat) (l : list A) (a : A) :
  In a (firstn n l) -> In a l.
Proof.
  revert l. induction n as [| n IH]; intros [| b l]; cbn; try easy.
  intros [-> | H]; auto.
Qed.

Lemma centered_by_halving (w tw : Z) :
  horizontally_centered w tw ((w - tw) / 2) = true.
Proof.
  unfold horizontally_centered. apply Z.leb_le.
  pose proof (Z.div_mod (w - tw) 2 ltac:(lia)).
  pose proof (Z.mod_pos_bound (w - tw) 2 ltac:(lia)). lia.
Qed.

(** What is true of the text whenever an image is returned: at most ten
    lines are drawn; each is a line of the message, centered from left
    to right in the width by its measured box; and each lies, whole,
    above the middle of the height. *)
Lemma create_error_image_lines (ts : text_support) (message : string)
      (w h : Z) (hp hp' : heap) (out : ref) (im : image) :
  create_error_image ts message w h hp = (Ok out, hp') ->
  hp' !! out = Some im ->
  (length (drawn (data im)) <= 10)%nat
  /\ (forall x y s,
         In (x, y, s) (drawn (data im)) ->
         In s (split_lines message)
         /\ (exists x0 y0 x1 y1 f,
               textbbox ts f s = Ok (x0, y0, x1, y1)
               /\ x = (w - (x1 - x0)) / 2
               /\ horizontally_centered w (x1 - x0) x = true)
         /\ y + line_pitch <= h / 2).
Proof.
  intros Hrun Hout.
  destruct (Z.ltb_spec w 0) as [Hw | Hw].
  { rewrite create_error_image_negative in Hrun by lia. discriminate. }
  destruct (Z.ltb_spec h 0) as [Hh | Hh].
  { rewrite create_error_image_negative in Hrun by lia. discriminate. }
  destruct (create_error_image_returns ts message w h hp Hw Hh)
    as (im' & n & f & Hrun' & _ & _ & _ & _ & Hd & Hbx).
  rewrite Hrun' in Hrun. injection Hrun as <- <-.
  rewrite lookup_app_r, Nat.sub_diag in Hout by lia.
  injection Hout as <-. split.
  - rewrite Hd, length_firstn, placed_length, length_firstn. lia.
  - intros x y s Hin. pose proof (Hbx x y s Hin) as (x0 & y0 & x1 & y1 & Hbox).
    rewrite Hd in Hin. apply In_firstn, placed_In in Hin
      as (Hs & Hx & _ & Hy).
    split; [eapply In_firstn, Hs |]. split.
    + exists x0, y0, x1, y1, f. unfold x_position in Hx. rewrite Hbox in Hx.
      subst x. repeat split; auto. apply centered_by_halving.
    + rewrite length_firstn in Hy. unfold first_y, line_pitch in *. lia.
Qed.

Lemma last_In {A} (l : list A) (d : A) : l <> [] -> In (List.last l d) l.
Proof.
  induction l as [| a [| b l] IH]; [congruence | cbn; auto |].
  intros _. right. apply IH. discriminate.
Qed.

(** The block of text is never centered in the height: it ends at the
    middle, or above, while as much as half the height is left below. *)
Lemma create_error_image_never_centered (ts : text_support)
      (message : string) (w h : Z) (hp hp' : heap) (out : ref) (im : image) :
  create_error_image ts message w h hp = (Ok out, hp') ->
  hp' !! out = Some im ->
  drawn (data im) <> [] ->
  vertically_centered h (drawn (data im)) = false.
Proof.
  intros Hrun Hout Hne.
  destruct (create_error_image_lines ts message w h hp hp' out im Hrun Hout)
    as [_ Hlines].
  unfold vertically_centered.
  destruct (drawn (data im)) as [| [[x top] s] rest] eqn:Hd; [congruence |].
  set (l := List.last _ _).
  assert (Hl : In l ((x, top, s) :: rest)) by (apply last_In; discriminate).
  destruct l as [[xl yl] sl]. cbn [fst snd].
  destruct (Hlines x top s (or_introl eq_refl)) as (_ & _ & Htop).
  destruct (Hlines xl yl sl Hl) as (_ & _ & Hlast).
  unfold line_pitch in *. apply Z.leb_gt.
  pose proof (Z.div_mod h 2 ltac:(lia)).
  pose proof (Z.mod_pos_bound h 2 ltac:(lia)). lia.
Qed.

(** [create_error_image("")] without text rendering: the plain red
    image of the size asked for. *)
Example create_error_image_empty_no_text :
  create_error_image no_text_support "" 512 512 []
  = (Ok 0%nat,
     [{| mode := "RGB"; width := 512; height := 512; data := Fill red |}]).
Proof. reflexivity. Qed.

(** C7, where the code departs from it.  With text rendering at hand, a
    message of two lines on 512 x 512 is drawn at heights 206 and 231:
    the block of two lines, 50 high by the code's own pitch, ends at the
    middle of the image, 256, and is not centered, which would put its
    first line at 231.  The rest of the documented behaviour is there:
    the image is RGB, 512 x 512, red under the text, and each line is
    centered in the width. *)
Theorem create_error_image_block_above_middle :
  exists im,
    create_error_image full_text_support two_lines 512 512 [] = (Ok 0%nat, [im])
    /\ mode im = "RGB"%string /\ size im = (512, 512)
    /\ background (data im) = Fill red
    /\ drawn (data im)
       = [(171, 206, "Generation failed"%string);
          (181, 231, "Invalid API key"%string)]
    /\ vertically_centered 512 (drawn (data im)) = false
    /\ vertically_centered 512
         [(171, 231, "Generation failed"%string);
          (181, 256, "Invalid API key"%string)] = true.
Proof. eexists. repeat split; vm_compute; reflexivity. Qed.

End CreateErrorImage.

(* ===================================================================== *)
(** * Further properties of utils/api_client.py                         *)
(* ===================================================================== *)

Section FormatGenerationInfo.

Lemma append_cons (c : ascii) (s t : string) :
  (String c s ++ t)%string = String c (s ++ t).
Proof. reflexivity. Qed.

Lemma append_assoc (a b c : string) :
  ((a ++ b) ++ c = a ++ (b ++ c))%string.
Proof.
  induction a as [| x a IH]; [reflexivity |].
  rewrite !append_cons. now f_equal.
Qed.

Lemma rstrip_app (s t : string) :
  rstrip t <> EmptyString -> rstrip (s ++ t) = (s ++ rstrip t)%string.
Proof.
  intros Ht. induction s as [| c s IH]; [reflexivity |].
  rewrite !append_cons. cbn [rstrip]. rewrite IH.
  destruct (s ++ rstrip t)%string eqn:E; [| reflexivity].
  destruct s; [exfalso; apply Ht; exact E | discriminate].
Qed.

Lemma rstrip_rule (s : string) :
  rstrip (s ++ "=========================" ++ nl)
  = (s ++ "=========================")%string.
Proof. rewrite rstrip_app; [reflexivity | discriminate]. Qed.

(** [strip] takes the two line breaks at the ends of the text and
    nothing else, whatever the fields hold. *)
Lemma strip_info (generation_id : string) (image_count : Z)
      (render_speed seed dimensions cost : string) :
  strip (nl ++ receipt generation_id image_count render_speed seed dimensions
                       cost ++ nl)
  = receipt generation_id image_count render_speed seed dimensions cost.
Proof.
  unfold strip, receipt.
  change (lstrip (nl ++ ?s)) with s.
  set (body := ("=== Generation Complete ===" ++ nl
     ++ "ID: " ++ generation_id ++ nl
     ++ "Images: " ++ str_of_int image_count ++ nl
     ++ "Speed: " ++ render_speed ++ nl
     ++ "Seed: " ++ seed ++ nl
     ++ "Dimensions: " ++ dimensions ++ nl
     ++ "Estimated Cost: $" ++ cost ++ nl)%string).
  transitivity (rstrip (body ++ "=========================" ++ nl)).
  - f_equal. unfold body. now rewrite !append_assoc.
  - rewrite rstrip_rule. unfold body. now rewrite !append_assoc.
Qed.

Lemma format_generation_info_eq (generation_id : string) (image_count : Z)
      (render_speed seed dimensions : string) :
  format_generation_info generation_id image_count render_speed seed dimensions
  = let* cost := calculate_cost image_count render_speed true in
    Ok (receipt generation_id image_count render_speed seed dimensions
                (format_3f cost)).
Proof.
  unfold format_generation_info.
  destruct (calculate_cost image_count render_speed true) as [cost | e];
    [| reflexivity].
  cbn [Py.bind]. f_equal. rewrite <- strip_info. f_equal.
  unfold receipt. now rewrite !append_assoc.
Qed.

Lemma In_counts (n k : Z) :
  0 <= n < k -> In n (counts k).
Proof.
  intros Hn. unfold counts. apply in_map_iff. exists (Z.to_nat n).
  split; [lia | apply in_seq; lia].
Qed.

(** The price of one image with a character reference, at every tier
    and at every string that is no tier. *)
Lemma character_price (render_speed : string) :
  default (decimal 7 2) (character_prices !! render_speed)
  = decimal (character_cents render_speed) 2.
Proof.
  unfold character_cents.
  destruct (String.eqb_spec render_speed "Turbo") as [-> | Ht];
    [reflexivity |].
  destruct (String.eqb_spec render_speed "Quality") as [-> | Hq];
    [reflexivity |].
  destruct (String.eqb_spec render_speed "Default") as [-> | Hd];
    [reflexivity |].
  now rewrite lookup_character_prices_other.
Qed.

Lemma prints_exact_counts :
  forallb (prints_exact (decimal 4 2) 4) (counts 1001) = true
  /\ forallb (prints_exact (decimal 7 2) 7) (counts 1001) = true
  /\ forallb (prints_exact (decimal 10 2) 10) (counts 1001) = true.
Proof. split; [| split]; vm_compute; reflexivity. Qed.

Lemma prints_exact_character (render_speed : string) (n : Z) :
  0 <= n <= 1000 ->
  prints_exact (decimal (character_cents render_speed) 2)
               (character_cents render_speed) n = true.
Proof.
  intros Hn. destruct prints_exact_counts as (H4 & H7 & H10).
  assert (Hin : In n (counts 1001)) by (apply In_counts; lia).
  unfold character_cents.
  destruct (String.eqb render_speed "Turbo");
    [exact (proj1 (forallb_forall _ _) H4 n Hin) |].
  destruct (String.eqb render_speed "Quality");
    [exact (proj1 (forallb_forall _ _) H10 n Hin) |].
  exact (proj1 (forallb_forall _ _) H7 n Hin).
Qed.

(** For up to 1000 images the estimate printed is the exact amount: the
    price of an image with a character reference, 4, 7 or 10 cents,
    times the count, in dollars with three decimals.  The rounding of
    the product of doubles never shows, the tier of a string that names
    none is the Default one, and the rest of the text is the fields as
    they were given. *)
Theorem format_generation_info_exact_cost (generation_id : string)
        (image_count : Z) (render_speed seed dimensions : string) :
  0 <= image_count <= 1000 ->
  format_generation_info generation_id image_count render_speed seed dimensions
  = Ok (receipt generation_id image_count render_speed seed dimensions
                (dollars (character_cents render_speed * image_count))).
Proof.
  intros Hn. rewrite format_generation_info_eq.
  pose proof (prints_exact_character render_speed image_count Hn) as Hp.
  unfold prints_exact in Hp. unfold calculate_cost.
  rewrite character_price.
  destruct (float_mul_int _ image_count) as [cost | e]; [| discriminate].
  cbn [Py.bind]. apply String.eqb_eq in Hp. now rewrite Hp.
Qed.

Lemma format_generation_info_exact_cost_witness :
  format_generation_info "gen-1" 3 "Default" "42" "1024x1024"
  = Ok (receipt "gen-1" 3 "Default" "42" "1024x1024" "0.210").
Proof.
  apply (format_generation_info_exact_cost "gen-1" 3 "Default" "42" "1024x1024").
  lia.
Defined.

(** Whatever the fields hold, for every count below [2^1023] in
    absolute value the function returns the eight lines, the cost being
    that of [calculate_cost] with a character reference printed with
    three decimals; [strip] takes the two line breaks at the ends and
    nothing from the fields, blank or not. *)
Theorem format_generation_info_returns (generation_id : string)
        (image_count : Z) (render_speed seed dimensions : string) :
  Z.abs image_count < 2 ^ 1023 ->
  exists cost,
    calculate_cost image_count render_speed true = Ok cost
    /\ format_generation_info generation_id image_count render_speed seed
                              dimensions
       = Ok (receipt generation_id image_count render_speed seed dimensions
                     (format_3f cost)).
Proof.
  intros Hn.
  destruct (calculate_cost_returns image_count render_speed true Hn)
    as (count & cost & _ & Hc).
  exists cost. split; [exact Hc |].
  rewrite format_generation_info_eq, Hc. reflexivity.
Qed.

Lemma format_generation_info_returns_witness :
  exists cost,
    calculate_cost (-2) " fast " true = Ok cost
    /\ format_generation_info " id " (-2) " fast " "" nl
       = Ok (receipt " id " (-2) " fast " "" nl (format_3f cost)).
Proof.
  apply (format_generation_info_returns " id " (-2) " fast " "" nl).
  vm_compute. reflexivity.
Defined.

End FormatGenerationInfo.

Section CalculateCostRange.

Lemma price_per_image_cases (render_speed : string) (use_character : bool) :
  In (default (decimal 7 2)
        ((if use_character then character_prices else base_prices)
           !! render_speed))
     [decimal 3 2; decimal 4 2; decimal 6 2; decimal 7 2; decimal 9 2;
      decimal 10 2].
Proof.
  destruct (String.eqb_spec render_speed "Turbo") as [-> | Ht];
    [destruct use_character; cbn; tauto |].
  destruct (String.eqb_spec render_speed "Default") as [-> | Hd];
    [destruct use_character; cbn; tauto |].
  destruct (String.eqb_spec render_speed "Quality") as [-> | Hq];
    [destruct use_character; cbn; tauto |].
  destruct use_character;
    [rewrite lookup_character_prices_other by assumption
    | rewrite lookup_base_prices_other by assumption]; cbn; tauto.
Qed.

(** Every price is a positive double below 1/8. *)
Lemma price_per_image_below_one (render_speed : string) (use_character : bool) :
  exists m e,
    default (decimal 7 2)
      ((if use_character then character_prices else base_prices)
         !! render_speed)
    = S754_finite false m e
    /\ e <= 0 /\ Z.pos (digits2_pos m) + e <= -3.
Proof.
  pose proof (price_per_image_cases render_speed use_character) as H.
  cbn [In] in H.
  destruct H as [<- | [<- | [<- | [<- | [<- | [<- | []]]]]]];
    eexists _, _; (split; [vm_compute; reflexivity | split; vm_compute; discriminate]).
Qed.

Lemma fmul_price_below (m : positive) (e : Z) (y : float) (K : Z) :
  e <= 0 -> Z.pos (digits2_pos m) + e <= -3 ->
  below_pow2 K y -> -1071 <= K <= 1026 ->
  below_pow2 (K - 2) (fmul (S754_finite false m e) y).
Proof.
  destruct y as [sy | | | sy my ey]; cbn [below_pow2]; try easy;
    try (intros; exact I).
  intros He Hm [Hy Hey] HK. unfold fmul. cbn [SFmul].
  pose proof (digits2_pos_pos m). pose proof (digits2_pos_pos my).
  replace (K - 2) with (K - 3 + 1) by lia.
  apply binary_round_aux_below; try lia.
  pose proof (Zdigits2_mul (Z.pos m) (Z.pos my) ltac:(lia) ltac:(lia)) as H'.
  cbn [Zdigits2] in H'. change (Z.pos (m * my)) with (Z.pos m * Z.pos my).
  cbn [Zdigits2]. lia.
Qed.

(** The estimate for a count below [2^1023] in absolute value is a
    finite double or a zero; it is not negative when the count is not,
    and it is [0.0] for no image. *)
Theorem calculate_cost_finite (n : Z) (render_speed : string)
        (use_character : bool) :
  Z.abs n < 2 ^ 1023 ->
  exists cost,
    calculate_cost n render_speed use_character = Ok cost
    /\ below_pow2 1022 cost
    /\ (0 <= n -> not_negative cost)
    /\ (n = 0 -> cost = S754_zero false).
Proof.
  intros Hn.
  assert (Hd : Zdigits2 n <= 1023).
  { replace (Zdigits2 n) with (Zdigits2 (Z.abs n)) by (now destruct n).
    apply Zdigits2_le; lia. }
  destruct (float_of_int_below n 1023 Hd ltac:(lia)) as (f & Hf & Hb).
  destruct (price_per_image_below_one render_speed use_character)
    as (m & e & Hp & He & Hm).
  exists (fmul (S754_finite false m e) f).
  unfold calculate_cost, float_mul_int. cbn zeta. rewrite Hp, Hf.
  split; [reflexivity |]. split; [| split].
  - change 1022 with (1024 - 2). apply fmul_price_below; try lia.
    exact Hb.
  - intros H0. apply fmul_not_negative; [exact I |].
    now apply (float_of_int_not_negative n).
  - intros ->. cbn in Hf. injection Hf as <-. reflexivity.
Qed.

Lemma calculate_cost_finite_witness :
  exists cost,
    calculate_cost 0 "Turbo" false = Ok cost
    /\ below_pow2 1022 cost
    /\ (0 <= 0 -> not_negative cost)
    /\ (0 = 0 -> cost = S754_zero false).
Proof. apply (calculate_cost_finite 0 "Turbo" false). vm_compute. reflexivity. Defined.

End CalculateCostRange.

Section Requests.

(** [check_quota] never raises, and it gives something else than [None]
    only for the body of an answer of status 200. *)
Theorem check_quota_none_unless_200 (self : IdeogramAPIClient) :
  (exists quota, check_quota self = Ok quota)
  /\ (forall quota,
         check_quota self = Ok quota -> quota <> JNull ->
         exists r, session_get self (quota_url self) = Ok r
                   /\ status_code r = 200 /\ json_body r = Ok quota)
  /\ (forall r,
         session_get self (quota_url self) = Ok r ->
         check_quota self
         = Ok (if status_code r =? 200
               then match json_body r with Ok body => body | Raise _ => JNull end
               else JNull))
  /\ (forall e,
         session_get self (quota_url self) = Raise e ->
         check_quota self = Ok JNull).
Proof.
  unfold check_quota, quota_url.
  destruct (session_get self _) as [r | e]; cbn.
  - destruct (status_code r =? 200) eqn:Hs; cbn.
    + destruct (json_body r) as [body | e] eqn:Hj; cbn.
      * split; [eauto |]. split; [| split; [| discriminate]].
        -- intros quota [= <-] _. exists r.
           split; [reflexivity | split; [lia | assumption]].
        -- intros r' [= <-]. now rewrite Hs, Hj.
      * split; [eauto |]. split; [| split; [| discriminate]].
        -- intros quota [= <-] Hq. congruence.
        -- intros r' [= <-]. now rewrite Hs, Hj.
    + split; [eauto |]. split; [| split; [| discriminate]].
      * intros quota [= <-] Hq. congruence.
      * intros r' [= <-]. now rewrite Hs.
  - split; [eauto |]. split; [| split; [discriminate | reflexivity]].
    intros quota [= <-] Hq. congruence.
Qed.

Lemma check_quota_none_unless_200_witness :
  check_quota (init "key" (answering 404 (JObj []))) = Ok JNull.
Proof.
  apply (proj1 (proj2 (proj2
           (check_quota_none_unless_200 (init "key" (answering 404 (JObj []))))))
           (reply 404 (JObj []))).
  reflexivity.
Defined.

(** [get_generation_status] follows the same policy at the address of
    the generation, for every identifier, the empty one included. *)
Theorem get_generation_status_none_unless_200 (self : IdeogramAPIClient)
        (generation_id : string) :
  (exists status, get_generation_status self generation_id = Ok status)
  /\ (forall status,
         get_generation_status self generation_id = Ok status ->
         status <> JNull ->
         exists r, session_get self (generation_url self generation_id) = Ok r
                   /\ status_code r = 200 /\ json_body r = Ok status)
  /\ (forall r,
         session_get self (generation_url self generation_id) = Ok r ->
         get_generation_status self generation_id
         = Ok (if status_code r =? 200
               then match json_body r with Ok body => body | Raise _ => JNull end
               else JNull))
  /\ (forall e,
         session_get self (generation_url self generation_id) = Raise e ->
         get_generation_status self generation_id = Ok JNull).
Proof.
  unfold get_generation_status, generation_url.
  destruct (session_get self _) as [r | e]; cbn.
  - destruct (status_code r =? 200) eqn:Hs; cbn.
    + destruct (json_body r) as [body | e] eqn:Hj; cbn.
      * split; [eauto |]. split; [| split; [| discriminate]].
        -- intros quota [= <-] _. exists r.
           split; [reflexivity | split; [lia | assumption]].
        -- intros r' [= <-]. now rewrite Hs, Hj.
      * split; [eauto |]. split; [| split; [| discriminate]].
        -- intros quota [= <-] Hq. congruence.
        -- intros r' [= <-]. now rewrite Hs, Hj.
    + split; [eauto |]. split; [| split; [| discriminate]].
      * intros quota [= <-] Hq. congruence.
      * intros r' [= <-]. now rewrite Hs.
  - split; [eauto |]. split; [| split; [discriminate | reflexivity]].
    intros quota [= <-] Hq. congruence.
Qed.

Lemma get_generation_status_none_unless_200_witness :
  get_generation_status (init "key" (answering 200 (JObj []))) "" = Ok (JObj []).
Proof.
  apply (proj1 (proj2 (proj2
           (get_generation_status_none_unless_200
              (init "key" (answering 200 (JObj []))) "")))
           (reply 200 (JObj []))).
  reflexivity.
Defined.

(** [validate_api_key] reads the network at two addresses only, the
    quota and the list of models, and at the second one only when the
    quota gives nothing. *)
Theorem validate_api_key_two_addresses (self : IdeogramAPIClient)
        (net : session) :
  net (quota_url self) = session_get self (quota_url self) ->
  (net (models_url self) = session_get self (models_url self) ->
   validate_api_key (on_network self net) = validate_api_key self)
  /\ (forall quota,
         check_quota self = Ok quota -> truthy quota = true ->
         validate_api_key (on_network self net) = validate_api_key self).
Proof.
  intros Hq.
  assert (Hc : check_quota (on_network self net) = check_quota self).
  { unfold check_quota, on_network. cbn [session_get base_url].
    unfold quota_url in Hq. now rewrite Hq. }
  unfold validate_api_key. rewrite Hc.
  split.
  - intros Hm. unfold on_network. cbn [session_get base_url].
    unfold models_url in Hm. now rewrite Hm.
  - intros quota Hr Ht. rewrite Hr. cbn [Py.bind]. now rewrite Ht.
Qed.

Lemma validate_api_key_two_addresses_witness :
  validate_api_key
    (on_network (init "key" (answering 200 (JObj [("credits"%string, JInt 5)])))
       (fun url =>
          if String.eqb url "https://api.ideogram.ai/v1/account/quota"
          then Ok (reply 200 (JObj [("credits"%string, JInt 5)]))
          else Raise RequestException))
  = validate_api_key
      (init "key" (answering 200 (JObj [("credits"%string, JInt 5)]))).
Proof.
  apply (proj2 (validate_api_key_two_addresses
                  (init "key" (answering 200 (JObj [("credits"%string, JInt 5)])))
                  (fun url =>
                     if String.eqb url "https://api.ideogram.ai/v1/account/quota"
                     then Ok (reply 200 (JObj [("credits"%string, JInt 5)]))
                     else Raise RequestException)
                  eq_refl)
          (JObj [("credits"%string, JInt 5)])); reflexivity.
Defined.

End Requests.

Section ParseApiErrorTotal.

(** [parse_api_error] never raises: whatever the body, whatever goes
    wrong while it is read, a value is returned. *)
Theorem parse_api_error_never_raises (r : response) :
  exists v, parse_api_error r = Ok v.
Proof.
  unfold parse_api_error.
  destruct (let* error_data := json_body r in _) as [v | e]; cbn; eauto.
Qed.

(** Bodies that parse to something that is not an object.  A number, a
    boolean and [null] give the fallback of a body that does not parse;
    so do a string and an array that contain [message] or [error], the
    one as a piece of text, the other as an element, because they cannot
    be indexed by it; every other string or array is serialized. *)
Theorem parse_api_error_non_object_body (status : Z) (txt : string) :
  (forall body,
      match body with
      | JNull | JBool _ | JInt _ | JFloat _ => True
      | _ => False
      end ->
      parse_api_error {| status_code := status; text := txt; json_body := Ok body |}
      = Ok (fallback_text
              {| status_code := status; text := txt; json_body := Ok body |}))
  /\ (forall s,
         parse_api_error
           {| status_code := status; text := txt; json_body := Ok (JStr s) |}
         = Ok (if is_substring "message" s || is_substring "error" s
               then fallback_text
                      {| status_code := status; text := txt;
                         json_body := Ok (JStr s) |}
               else JStr (json_dumps (JStr s))))
  /\ (forall xs,
         parse_api_error
           {| status_code := status; text := txt; json_body := Ok (JArr xs) |}
         = Ok (if existsb (is_str "message") xs || existsb (is_str "error") xs
               then fallback_text
                      {| status_code := status; text := txt;
                         json_body := Ok (JArr xs) |}
               else JStr (json_dumps (JArr xs)))).
Proof.
  split; [| split].
  - intros body Hb. now apply parse_api_error_scalar_body.
  - intros s. unfold parse_api_error, fallback_text.
    cbn [json_body text status_code contains subscript Py.bind].
    destruct (is_substring "message" s);
      [cbn [try_except orb]; now destruct (String.eqb txt "") |].
    cbn [Py.bind orb].
    destruct (is_substring "error" s); cbn [try_except Py.bind];
      [now destruct (String.eqb txt "") | reflexivity].
  - intros xs. unfold parse_api_error, fallback_text.
    cbn [json_body text status_code contains subscript Py.bind].
    destruct (existsb (is_str "message") xs);
      [cbn [try_except orb]; now destruct (String.eqb txt "") |].
    cbn [Py.bind orb].
    destruct (existsb (is_str "error") xs); cbn [try_except Py.bind];
      [now destruct (String.eqb txt "") | reflexivity].
Qed.

Lemma parse_api_error_non_object_body_witness :
  parse_api_error
    {| status_code := 502; text := "502"; json_body := Ok (JInt 502) |}
  = Ok (JStr "502").
Proof.
  apply (proj1 (parse_api_error_non_object_body 502 "502") (JInt 502)).
  exact I.
Defined.

End ParseApiErrorTotal.

(* ===================================================================== *)
(** * Further properties of utils/image_utils.py                        *)
(* ===================================================================== *)

Section ValidateImageDimensionsSides.

(** The rule on the number of pixels decides nothing: two sides that
    pass the rule on the largest side have at most [2048 * 2048]
    pixels.  The dimensions are valid exactly when both sides lie
    between 256 and 2048, the message about the resolution is never
    returned, and the two sides can be exchanged. *)
Theorem validate_image_dimensions_sides_decide (width height : Z) :
  (fst (validate_image_dimensions width height) = true
   <-> 256 <= width <= 2048 /\ 256 <= height <= 2048)
  /\ validate_image_dimensions width height
     <> (false, "Image resolution too high. Maximum is 4194304 pixels"%string)
  /\ validate_image_dimensions width height
     = validate_image_dimensions height width.
Proof.
  unfold validate_image_dimensions, min_dim, max_dim, max_pixels.
  destruct (Z.ltb_spec width 256) as [H1 | H1];
    destruct (Z.ltb_spec height 256) as [H2 | H2]; cbn [orb];
    try (split; [split; [discriminate | lia] | split; [discriminate | reflexivity]]).
  destruct (Z.gtb_spec width 2048) as [H3 | H3];
    destruct (Z.gtb_spec height 2048) as [H4 | H4]; cbn [orb];
    try (split; [split; [discriminate | lia] | split; [discriminate | reflexivity]]).
  assert (H5 : (width * height >? 4194304) = false) by nia.
  assert (H6 : (height * width >? 4194304) = false) by nia.
  rewrite H5, H6.
  split; [split; [lia | reflexivity] | split; [discriminate | reflexivity]].
Qed.

End ValidateImageDimensionsSides.

Section CalculateAspectRatioEdges.

Lemma calculate_aspect_ratio_returns_witness :
  exists ratio label,
    int_true_div 1920 1080 = Ok ratio
    /\ calculate_aspect_ratio 1920 1080 = Ok label.
Proof. apply (calculate_aspect_ratio_returns 1920 1080); lia. Defined.

Lemma div_eucl_shift (p : positive) :
  Z.div_eucl (Z.shiftl (Z.pos p) 53) (Z.pos p) = (2 ^ 53, 0).
Proof.
  rewrite Z.shiftl_mul_pow2 by lia.
  pose proof (Z.div_eucl_eq (Z.pos p * 2 ^ 53) (Z.pos p) ltac:(lia)) as E.
  pose proof (Z.mod_pos_bound (Z.pos p * 2 ^ 53) (Z.pos p) ltac:(lia)) as B.
  unfold Z.modulo in B.
  destruct (Z.div_eucl (Z.pos p * 2 ^ 53) (Z.pos p)) as [q r].
  assert (r = 0 /\ q = 2 ^ 53) as [-> ->]; [| reflexivity].
  assert (Hr : Z.pos p * (2 ^ 53 - q) = r) by lia.
  assert (2 ^ 53 - q = 0) by nia.
  split; nia.
Qed.

(** The quotient of an integer by itself is the double 1.0. *)
Lemma quotient_self (w : Z) : w <> 0 -> quotient w w = decimal 1 0.
Proof.
  intros Hw.
  assert (H : forall (s : bool) (p : positive),
             SFdiv prec emax (S754_finite s p 0) (S754_finite s p 0)
             = decimal 1 0).
  { intros s p. cbn [SFdiv]. unfold SFdiv_core_binary.
    rewrite !Z.sub_diag.
    change (Z.min (fexp prec emax 0) 0) with (-53).
    change (0 - -53) with 53.
    cbv iota beta. rewrite div_eucl_shift.
    assert (Hl : new_location (Z.pos p) 0 = loc_Exact).
    { unfold new_location, new_location_even, new_location_odd.
      destruct (Z.even (Z.pos p)); reflexivity. }
    rewrite Hl. rewrite xorb_nilpotent. vm_compute. reflexivity. }
  unfold quotient. destruct w as [| p | p]; [congruence | |]; apply H.
Qed.

(** A square is 1:1 at every size: the quotient of the side by itself
    is the double 1.0 exactly, however large the side. *)
Theorem calculate_aspect_ratio_square (width : Z) :
  width <> 0 -> calculate_aspect_ratio width width = Ok "1:1"%string.
Proof.
  intros Hw. unfold calculate_aspect_ratio, int_true_div.
  replace (width =? 0) with false by lia.
  rewrite quotient_self by assumption. vm_compute. reflexivity.
Qed.

Lemma calculate_aspect_ratio_square_witness :
  calculate_aspect_ratio 777 777 = Ok "1:1"%string.
Proof. apply (calculate_aspect_ratio_square 777). discriminate. Defined.

(** The width is not checked: a width of 0 is taken for the narrowest
    ratio of the table, on every height that is not 0. *)
Theorem calculate_aspect_ratio_zero_width (height : Z) :
  height <> 0 -> calculate_aspect_ratio 0 height = Ok "1:3"%string.
Proof.
  intros Hh. unfold calculate_aspect_ratio, int_true_div.
  replace (height =? 0) with false by lia.
  unfold quotient.
  destruct height as [| p | p]; [congruence | |];
    cbn [exact_int SFdiv xorb Py.bind]; vm_compute; reflexivity.
Qed.

Lemma calculate_aspect_ratio_zero_width_witness :
  calculate_aspect_ratio 0 (-5) = Ok "1:3"%string.
Proof. apply (calculate_aspect_ratio_zero_width (-5)). discriminate. Defined.

End CalculateAspectRatioEdges.

Section EnsureRgbTwice.

(** [ensure_rgb] is idempotent: applied to its own result it returns
    that same object and builds nothing. *)
Theorem ensure_rgb_idempotent (image : ref) (im : PIL.image) (h : heap) :
  h !! image = Some im ->
  0 <= width im -> 0 <= height im ->
  exists out h',
    ensure_rgb image h = (Ok out, h')
    /\ ensure_rgb out h' = (Ok out, h').
Proof.
  intros Him Hw Hh.
  destruct (String.eqb_spec (mode im) "RGB") as [Hrgb | Hrgb].
  - exists image, h. rewrite (ensure_rgb_rgb image im h Him Hrgb). auto.
  - destruct (String.eqb_spec (mode im) "RGBA") as [Hrgba | Hrgba].
    + eexists _, _. split; [apply (ensure_rgb_rgba image im h Him Hw Hh Hrgba) |].
      apply ensure_rgb_rgb with (im := composited im); [| reflexivity].
      apply list_lookup_middle. reflexivity.
    + eexists _, _. split; [apply (ensure_rgb_other image im h Him Hrgb Hrgba) |].
      apply ensure_rgb_rgb with (im := converted im); [| reflexivity].
      apply list_lookup_middle. reflexivity.
Qed.

Lemma ensure_rgb_idempotent_witness :
  exists out h',
    ensure_rgb 0%nat [photo] = (Ok out, h')
    /\ ensure_rgb out h' = (Ok out, h').
Proof.
  apply (ensure_rgb_idempotent 0%nat photo [photo]);
    [reflexivity | discriminate | discriminate].
Defined.

End EnsureRgbTwice.

Section ResizeThenValidate.

(** What [resize_to_limit] does, on every outcome of the encoder and of
    the arithmetic. *)
Lemma resize_to_limit_cases (png : encoder) (image : ref) (im : PIL.image)
      (h : heap) (max_size_mb : float) :
  h !! image = Some im ->
  resize_to_limit png image max_size_mb h
  = match png im with
    | Raise e => (Raise e, h)
    | Ok nbytes =>
        match int_true_div nbytes (1024 * 1024) with
        | Raise e => (Raise e, h)
        | Ok current_size_mb =>
            if flt max_size_mb current_size_mb then
              match scaled_sides im max_size_mb current_size_mb with
              | Ok (new_width, new_height) =>
                  (Ok (length h),
                   h ++ [resized im (Z.max new_width 256)
                                 (Z.max new_height 256)])
              | Raise e => (Raise e, h)
              end
            else (Ok image, h)
        end
    end.
Proof.
  intros Him.
  destruct (png im) as [nbytes | e] eqn:Hpng.
  - destruct (int_true_div nbytes (1024 * 1024)) as [cur | e] eqn:Hmb.
    + destruct (flt max_size_mb cur) eqn:Hcmp.
      * now apply resize_to_limit_over_eq with (nbytes := nbytes).
      * now apply resize_to_limit_within
          with (im := im) (current_size_mb := cur) (nbytes := nbytes).
    + unfold resize_to_limit, Image_save_tell.
      erewrite bindM_ok.
      2:{ erewrite bindM_ok by (apply read_ok, Him). apply lift_ok, Hpng. }
      erewrite bindM_raise; [reflexivity |]. unfold lift. now rewrite Hmb.
  - unfold resize_to_limit, Image_save_tell.
    erewrite bindM_raise; [reflexivity |].
    erewrite bindM_ok by (apply read_ok, Him). unfold lift. now rewrite Hpng.
Qed.

(** What [resize_to_limit] returns is either its argument, with nothing
    changed, or a new image of the same mode whose sides are at least
    256: [validate_image_dimensions] can refuse it only for being too
    large. *)
Theorem resize_to_limit_then_validate (png : encoder) (image : ref)
        (im : PIL.image) (h h1 : heap) (max_size_mb : float) (out : ref) :
  h !! image = Some im ->
  resize_to_limit png image max_size_mb h = (Ok out, h1) ->
  (out = image /\ h1 = h)
  \/ (exists res,
        out = length h /\ h1 = h ++ [res]
        /\ mode res = mode im
        /\ validate_image_dimensions (width res) (height res)
           = if (width res >? 2048) || (height res >? 2048)
             then (false,
                   "Image dimensions too large. Maximum dimension is 2048px"%string)
             else (true, "Valid dimensions"%string)).
Proof.
  intros Him Hrun. rewrite (resize_to_limit_cases png image im h _ Him) in Hrun.
  destruct (png im) as [nbytes | e]; [| discriminate].
  destruct (int_true_div nbytes (1024 * 1024)) as [cur | e]; [| discriminate].
  destruct (flt max_size_mb cur).
  - destruct (scaled_sides im max_size_mb cur) as [[nw nh] | e];
      [| discriminate].
    injection Hrun as <- <-. right. eexists.
    split; [reflexivity |]. split; [reflexivity |]. split; [reflexivity |].
    cbn [width height resized].
    unfold validate_image_dimensions, min_dim, max_dim, max_pixels.
    replace (Z.max nw 256 <? 256) with false by lia.
    replace (Z.max nh 256 <? 256) with false by lia.
    cbn [orb].
    destruct (Z.gtb_spec (Z.max nw 256) 2048) as [H3 | H3];
      destruct (Z.gtb_spec (Z.max nh 256) 2048) as [H4 | H4]; cbn [orb];
      try reflexivity.
    replace (Z.max nw 256 * Z.max nh 256 >? 4194304) with false by nia.
    reflexivity.
  - injection Hrun as <- <-. now left.
Qed.

Lemma resize_to_limit_then_validate_witness :
  (1%nat = 0%nat /\ [photo; resized photo 636 509] = [photo])
  \/ (exists res,
        1%nat = length [photo]
        /\ [photo; resized photo 636 509] = [photo] ++ [res]
        /\ mode res = mode photo
        /\ validate_image_dimensions (width res) (height res)
           = if (width res >? 2048) || (height res >? 2048)
             then (false,
                   "Image dimensions too large. Maximum dimension is 2048px"%string)
             else (true, "Valid dimensions"%string)).
Proof.
  apply (resize_to_limit_then_validate twenty_mb 0%nat photo [photo]
           [photo; resized photo 636 509] (decimal 10 0) 1%nat);
    [reflexivity | vm_compute; reflexivity].
Defined.

End ResizeThenValidate.

Section CreateErrorImageTotal.





Lemma create_error_image_never_centered_witness :
  vertically_centered 512 (drawn (data error_image_two_lines)) = false.
Proof.
  apply (create_error_image_never_centered full_text_support two_lines 512 512
           [] [error_image_two_lines] 0%nat error_image_two_lines);
    [vm_compute; reflexivity | reflexivity | discriminate].
Defined.

End CreateErrorImageTotal.
